(** * gosolarman: the Solarman V5 frame codec and its TCP transporter

    A shallow embedding of [crc.go], [types.go] and [solarman_client.go].

    Conventions.
    - A Go [byte], [uint16] or [uint32] is a [Z]; every operation that can
      leave the range writes its wrap-around out ([mod 256], [mod 65536]).
    - A Go [[]byte] is a [slice]: the visible elements together with the
      part of the backing array between the length and the capacity, since
      a slice expression [s[lo:hi]] is checked against the capacity and an
      index expression [s[i]] against the length.
    - A run-time panic (slice bounds, index out of range) is an outcome of
      its own, distinct from a returned [error]. *)

From Stdlib Require Import String ZArith List Lia Bool.
Import ListNotations.
Open Scope Z_scope.

(** ** The Go run time: panics, results, slices *)

Module Go.

(** The run-time panics the code can raise. *)
Inductive panic : Type :=
| SliceBounds (lo hi cap : Z)   (* slice bounds out of range [lo:hi], capacity cap *)
| IndexRange (i len : Z)        (* index out of range [i] with length len *)
| NilDeref.                     (* method call through a nil interface value *)

(** What a call does: it returns a value, returns an error, or panics. *)
Inductive result (E A : Type) : Type :=
| Ok (a : A)
| Err (e : E)
| Panic (p : panic).
Arguments Ok {E A} a.
Arguments Err {E A} e.
Arguments Panic {E A} p.

Definition bind {E A B} (m : result E A) (k : A -> result E B) : result E B :=
  match m with
  | Ok a => k a
  | Err e => Err e
  | Panic p => Panic p
  end.

(** A byte slice: [elems] are the [len] visible bytes, [spare] the bytes of
    the backing array past the length, so that [cap = len + length spare]. *)
Record slice : Type := mkSlice { elems : list Z; spare : list Z }.

Definition of_list (l : list Z) : slice := mkSlice l [].

Definition len (s : slice) : Z := Z.of_nat (length (elems s)).
Definition cap (s : slice) : Z := Z.of_nat (length (elems s) + length (spare s)).

(** [s[i]]: checked against the length. *)
Definition index {E} (s : slice) (i : Z) : result E Z :=
  if (0 <=? i) && (i <? len s)
  then match nth_error (elems s) (Z.to_nat i) with
       | Some b => Ok b
       | None => Panic (IndexRange i (len s))
       end
  else Panic (IndexRange i (len s)).

(** [s[lo:hi]]: requires [0 <= lo <= hi <= cap(s)]; the result shares the
    backing array, so its capacity is [cap(s) - lo]. *)
Definition sub {E} (s : slice) (lo hi : Z) : result E slice :=
  if (0 <=? lo) && (lo <=? hi) && (hi <=? cap s)
  then let backing := elems s ++ spare s in
       Ok (mkSlice (firstn (Z.to_nat (hi - lo)) (skipn (Z.to_nat lo) backing))
                   (skipn (Z.to_nat hi) backing))
  else Panic (SliceBounds lo hi (cap s)).

(** [bytes.Equal]: same length and same visible bytes. *)
Definition bytes_Equal (a b : slice) : bool :=
  if list_eq_dec Z.eq_dec (elems a) (elems b) then true else false.

(** A value of a Go [byte]. *)
Definition is_byte (b : Z) : Prop := 0 <= b < 256.

End Go.

Import Go.

Notation "x <- m ;; k" := (Go.bind m (fun x => k))
  (at level 61, m at next level, right associativity).

(** ** encoding/binary, as far as the code uses it *)

Module Binary.

(** [binary.LittleEndian.Uint16(b)]: starts with [_ = b[1]]. *)
Definition LittleEndian_Uint16 {E} (b : slice) : result E Z :=
  _ <- index b 1 ;;
  b0 <- index b 0 ;;
  b1 <- index b 1 ;;
  Ok (Z.lor b0 (Z.shiftl b1 8)).

(** [binary.BigEndian.Uint16(b)]: starts with [_ = b[1]]. *)
Definition BigEndian_Uint16 {E} (b : slice) : result E Z :=
  _ <- index b 1 ;;
  b0 <- index b 0 ;;
  b1 <- index b 1 ;;
  Ok (Z.lor b1 (Z.shiftl b0 8)).

(** [binary.LittleEndian.Uint32(b)]: starts with [_ = b[3]]. *)
Definition LittleEndian_Uint32 {E} (b : slice) : result E Z :=
  _ <- index b 3 ;;
  b0 <- index b 0 ;;
  b1 <- index b 1 ;;
  b2 <- index b 2 ;;
  b3 <- index b 3 ;;
  Ok (Z.lor (Z.lor (Z.lor b0 (Z.shiftl b1 8)) (Z.shiftl b2 16)) (Z.shiftl b3 24)).

(** [binary.LittleEndian.PutUint16] into a fresh 2-byte array. *)
Definition LittleEndian_PutUint16 (v : Z) : list Z :=
  [v mod 256; Z.shiftr v 8 mod 256].

(** [binary.LittleEndian.PutUint32] into a fresh 4-byte array. *)
Definition LittleEndian_PutUint32 (v : Z) : list Z :=
  [v mod 256; Z.shiftr v 8 mod 256; Z.shiftr v 16 mod 256; Z.shiftr v 24 mod 256].

End Binary.

(** ** crc.go *)

Module CRC16.

(** One pass of the inner [for range 8] loop body. *)
Definition crc_shift (crc : Z) : Z :=
  if Z.land crc 0x01 =? 0
  then Z.shiftr crc 1
  else Z.lxor (Z.shiftr crc 1) 0xA001.

(** The body of the outer loop for one byte [v]. *)
Definition crc_byte (crc v : Z) : Z :=
  let crc := Z.lxor crc v in
  Nat.iter 8 crc_shift crc.

(** The register after the outer loop. *)
Definition crc_register (data : list Z) : Z :=
  fold_left crc_byte data 0xFFFF.

(** [CRCFromBytes]: [lo := byte(crc)], [hi := byte(crc >> 8)], returned
    as the fresh slice [[]byte{lo, hi}]. *)
Definition CRCFromBytes (data : slice) : slice :=
  let crc := crc_register (elems data) in
  let lo := crc mod 256 in
  let hi := Z.shiftr crc 8 mod 256 in
  of_list [lo; hi].

End CRC16.

(** ** The codec: types.go and the packager of solarman_client.go *)

Module Codec.

Import Binary CRC16.

Definition StartByte : Z := 0xA5.
Definition EndByte : Z := 0x15.
Definition ControlCodeRequest : Z := 0x4510.
Definition FrameType : Z := 0x02.
Definition SensorType : Z := 0x0000.
Definition TotalWorkingTime : Z := 0x00000000.
Definition PowerOnTime : Z := 0x00000000.
Definition OffsetTime : Z := 0x00000000.

(** [modbus.ProtocolDataUnit] of the Modbus library the package plugs into. *)
Record ProtocolDataUnit : Type := mkPDU { FunctionCode : Z; Data : slice }.

Record Header : Type := mkHeader {
  Start : Z;
  Length : Z;
  ControlCode : Z;
  SequenceNumber : Z;
  LoggerSerialNumber : Z
}.

(** The fields that share a name with a constant above carry the prefix [rp_]. *)
Record ResponsePayload : Type := mkPayload {
  rp_FrameType : Z;
  rp_Status : Z;
  rp_TotalWorkingTime : Z;
  rp_PowerOnTime : Z;
  rp_OffsetTime : Z;
  ModbusRTUFrame : ProtocolDataUnit
}.

Record Response : Type := mkResponse {
  resp_Header : Header;
  Payload : ResponsePayload;
  Checksum : Z
}.

(** [solarmanPackager]; [serial] is the sequence counter. *)
Record solarmanPackager : Type := mkPackager {
  SlaveID : Z;
  LoggerSerial : Z;
  serial : Z
}.

(** The errors of [io] that a [bytes.Reader] returns. *)
Inductive io_error : Type := EOF | ErrUnexpectedEOF.

(** The errors [ParseHeader] builds with [fmt.Errorf], with their operands. *)
Inductive header_error : Type :=
| HdrTooShort (got : Z)
| HdrReadStart (e : io_error)
| HdrBadStart (expected got : Z)
| HdrReadLength (e : io_error)
| HdrReadControlCode (e : io_error)
| HdrReadSequenceNumber (e : io_error)
| HdrReadLoggerSerial (e : io_error).

(** The errors [Parse] builds with [fmt.Errorf], with their operands. *)
Inductive parse_error : Type :=
| DataTooShort (got : Z)
| FailedHeader (e : header_error)
| ChecksumMismatch (calculated provided : Z)
| InvalidLength (expected got : Z)
| InvalidRTU (got : Z)
| CRCMismatch (expected provided : list Z).

(** The errors [Verify] builds with [fmt.Errorf], with their operands. *)
Inductive verify_error : Type :=
| ResponseTooShort (got : Z)
| InvalidStartByte (expected got : Z)
| VerifyChecksumMismatch (calculated provided : Z)
| SequenceMismatch (request response : Z)
| ControlCodeMismatch (expected got : Z)
| SerialMismatch (request response : list Z).

(** [CheckSum]: a [byte] accumulator, so [+=] wraps modulo 256. *)
Definition CheckSum (b : slice) : Z :=
  let checksum := fold_left (fun checksum v => (checksum + Z.land v 0xFF) mod 256)
                            (elems b) 0 in
  Z.land checksum 0xFF.

Definition uint16ToBytes (i : Z) : list Z := LittleEndian_PutUint16 i.
Definition uint32ToBytes (i : Z) : list Z := LittleEndian_PutUint32 i.

(** [CRC]: [data := []byte{SlaveID, pdu.FunctionCode}], then
    [append(data, pdu.Data...)]. *)
Definition CRC (SlaveID : Z) (pdu : ProtocolDataUnit) : slice :=
  let data := [SlaveID; FunctionCode pdu] in
  let data := data ++ elems (Data pdu) in
  CRCFromBytes (of_list data).

Definition NewSolarmanPackager (LoggerSerial : Z) : solarmanPackager :=
  mkPackager 0 LoggerSerial 0x00.

Definition SetSlave (mb : solarmanPackager) (slaveID : Z) : solarmanPackager :=
  mkPackager slaveID (LoggerSerial mb) (serial mb).

(** [getNextSerial]: [mb.serial++] on a [byte], then the new value. *)
Definition getNextSerial (mb : solarmanPackager) : solarmanPackager * Z :=
  let s := (serial mb + 1) mod 256 in
  (mkPackager (SlaveID mb) (LoggerSerial mb) s, s).

(** A [bytes.Buffer] is the list of bytes written so far. *)
Definition WriteByte (buf : list Z) (b : Z) : list Z := buf ++ [b].
Definition Write (buf : list Z) (p : list Z) : list Z := buf ++ p.

(** [Encode]: the packager after the call and the bytes of the frame
    (the returned error is always nil). *)
Definition Encode (mb : solarmanPackager) (pdu : ProtocolDataUnit)
  : solarmanPackager * list Z :=
  let payload := [] in
  let payload := WriteByte payload FrameType in
  let payload := Write payload (uint16ToBytes SensorType) in
  let payload := Write payload (uint32ToBytes TotalWorkingTime) in
  let payload := Write payload (uint32ToBytes PowerOnTime) in
  let payload := Write payload (uint32ToBytes OffsetTime) in
  let payload := WriteByte payload (SlaveID mb) in
  let payload := WriteByte payload (FunctionCode pdu) in
  let payload := Write payload (elems (Data pdu)) in
  let payload := Write payload (elems (CRC (SlaveID mb) pdu)) in
  let payloadBytes := payload in
  let request := [] in
  let request := WriteByte request StartByte in
  let request :=
    Write request (uint16ToBytes (Z.of_nat (length payloadBytes) mod 65536)) in
  let request := Write request (uint16ToBytes ControlCodeRequest) in
  let '(mb, next) := getNextSerial mb in
  let request := WriteByte request next in
  let request := WriteByte request 0x00 in
  let request := Write request (uint32ToBytes (LoggerSerial mb)) in
  let request := Write request payloadBytes in
  let request := WriteByte request (CheckSum (of_list (skipn 1 request))) in
  let request := WriteByte request EndByte in
  (mb, request).

(** [reader.ReadByte()] on the unread bytes of a [bytes.Reader]. *)
Definition ReadByte (unread : list Z) : io_error + (Z * list Z) :=
  match unread with
  | [] => inl EOF
  | b :: rest => inr (b, rest)
  end.

(** [binary.Read(reader, binary.LittleEndian, &v)] for a [uint16]. *)
Definition Read_uint16 (unread : list Z) : io_error + (Z * list Z) :=
  match unread with
  | b0 :: b1 :: rest => inr (Z.lor b0 (Z.shiftl b1 8), rest)
  | [] => inl EOF
  | _ => inl ErrUnexpectedEOF
  end.

(** [binary.Read(reader, binary.LittleEndian, &v)] for a [uint32]. *)
Definition Read_uint32 (unread : list Z) : io_error + (Z * list Z) :=
  match unread with
  | b0 :: b1 :: b2 :: b3 :: rest =>
      inr (Z.lor (Z.lor (Z.lor b0 (Z.shiftl b1 8)) (Z.shiftl b2 16)) (Z.shiftl b3 24),
           rest)
  | [] => inl EOF
  | _ => inl ErrUnexpectedEOF
  end.

Definition ParseHeader (data : slice) : result header_error Header :=
  if len data <? 11 then Err (HdrTooShort (len data)) else
  let reader := elems data in
  match ReadByte reader with
  | inl e => Err (HdrReadStart e)
  | inr (start, reader) =>
    if negb (start =? StartByte) then Err (HdrBadStart StartByte start) else
    match Read_uint16 reader with
    | inl e => Err (HdrReadLength e)
    | inr (length, reader) =>
      match Read_uint16 reader with
      | inl e => Err (HdrReadControlCode e)
      | inr (controlCode, reader) =>
        match Read_uint16 reader with
        | inl e => Err (HdrReadSequenceNumber e)
        | inr (sequenceNumber, reader) =>
          match Read_uint32 reader with
          | inl e => Err (HdrReadLoggerSerial e)
          | inr (loggerSerialNumber, _) =>
            Ok (mkHeader start length controlCode sequenceNumber loggerSerialNumber)
          end
        end
      end
    end
  end.

(** [parseRTUFrame]: it can only panic. *)
Definition parseRTUFrame {E} (data : slice) : result E ProtocolDataUnit :=
  fc <- index data 1 ;;
  d <- sub data 2 (len data - 2) ;;
  Ok (mkPDU fc d).

(** Lifts a call whose error is wrapped by the caller. *)
Definition wrap {E E' A} (f : E -> E') (m : result E A) : result E' A :=
  match m with
  | Ok a => Ok a
  | Err e => Err (f e)
  | Panic p => Panic p
  end.

Definition Parse (data : slice) : result parse_error Response :=
  if len data <? 11 then Err (DataTooShort (len data)) else
  h <- sub data 0 11 ;;
  header <- wrap FailedHeader (ParseHeader h) ;;
  c <- sub data 1 (len data - 2) ;;
  let calculatedChecksum := CheckSum c in
  providedChecksum <- index data (len data - 2) ;;
  if negb (calculatedChecksum =? providedChecksum)
  then Err (ChecksumMismatch calculatedChecksum providedChecksum) else
  span <- sub data 11 (len data - 2) ;;
  let responseLength := len span mod 65536 in
  if negb (Length header =? responseLength)
  then Err (InvalidLength (Length header) responseLength) else
  rtu <- sub data 25 (len data - 2) ;;
  if len rtu <? 5 then Err (InvalidRTU (len rtu)) else
  providedCrc <- sub rtu (len rtu - 2) (len rtu) ;;
  r <- sub rtu 0 (len rtu - 2) ;;
  let expectedCrc := CRCFromBytes r in
  if negb (bytes_Equal providedCrc expectedCrc)
  then Err (CRCMismatch (elems expectedCrc) (elems providedCrc)) else
  frameType <- index data 11 ;;
  status <- index data 12 ;;
  t <- sub data 13 17 ;;
  totalWorkingTime <- LittleEndian_Uint32 t ;;
  t <- sub data 17 21 ;;
  powerOnTime <- LittleEndian_Uint32 t ;;
  t <- sub data 21 25 ;;
  offsetTime <- LittleEndian_Uint32 t ;;
  f <- sub data 25 (len data - 2) ;;
  frame <- parseRTUFrame f ;;
  let payload :=
    mkPayload frameType status totalWorkingTime powerOnTime offsetTime frame in
  last <- index data (len data - 1) ;;
  Ok (mkResponse header payload last).

(** [Decode]: the packager is not touched. *)
Definition Decode (adu : slice) : result parse_error ProtocolDataUnit :=
  response <- Parse adu ;;
  Ok (ModbusRTUFrame (Payload response)).

(** [Verify]: the operands of each [fmt.Errorf] are evaluated before the
    error is built. *)
Definition Verify (aduRequest aduResponse : slice) : result verify_error unit :=
  if len aduResponse <? 11 then Err (ResponseTooShort (len aduResponse)) else
  start <- index aduResponse 0 ;;
  if negb (start =? StartByte) then Err (InvalidStartByte StartByte start) else
  c <- sub aduResponse 1 (len aduResponse - 2) ;;
  let calculatedChecksum := CheckSum c in
  providedChecksum <- index aduResponse (len aduResponse - 2) ;;
  if negb (calculatedChecksum =? providedChecksum)
  then Err (VerifyChecksumMismatch calculatedChecksum providedChecksum) else
  requestSequence <- sub aduRequest 5 6 ;;
  responseSequence <- sub aduResponse 5 6 ;;
  if negb (bytes_Equal requestSequence responseSequence)
  then (a <- BigEndian_Uint16 requestSequence ;;
        b <- BigEndian_Uint16 responseSequence ;;
        Err (SequenceMismatch a b)) else
  q <- sub aduRequest 3 5 ;;
  requestControlCode <- LittleEndian_Uint16 q ;;
  p <- sub aduResponse 3 5 ;;
  responseControlCode <- LittleEndian_Uint16 p ;;
  let expectedResponseControlCode := (requestControlCode - 0x3000) mod 65536 in
  if negb (responseControlCode =? expectedResponseControlCode)
  then Err (ControlCodeMismatch expectedResponseControlCode responseControlCode) else
  requestLoggerSerial <- sub aduRequest 7 11 ;;
  responseLoggerSerial <- sub aduResponse 7 11 ;;
  if negb (bytes_Equal requestLoggerSerial responseLoggerSerial)
  then Err (SerialMismatch (elems requestLoggerSerial) (elems responseLoggerSerial)) else
  Ok tt.

End Codec.

(** ** The transporter of solarman_client.go *)

Module Transport.

(** Go errors, as far as [errors.Is(err, syscall.EPIPE)] can tell them apart. *)
Inductive error : Type :=
| Errno (code : Z)                         (* a syscall.Errno *)
| Wrapped (context : string) (cause : error)
    (* an error with Unwrap: *net.OpError, *os.SyscallError, fmt.Errorf("...: %w", cause) *)
| ShortWrite (got expected : Z)
    (* fmt.Errorf("error while sending data. Got %d expected %d", n, len(request)) *)
| Other (message : string).                (* any other error: io.EOF, a timeout, ... *)

Definition EPIPE : error := Errno 0x20.

(** [errors.Is(err, syscall.EPIPE)]: follows the Unwrap chain. *)
Fixpoint is_EPIPE (err : error) : bool :=
  match err with
  | Errno code => code =? 0x20
  | Wrapped _ cause => is_EPIPE cause
  | ShortWrite _ _ => false
  | Other _ => false
  end.

Definition errors_Is_EPIPE (err : option error) : bool :=
  match err with
  | None => false
  | Some e => is_EPIPE e
  end.

(** The network the transporter talks to: what the k-th call of each kind
    answers.  A connection is named by the number of the Dial that made it. *)
Record network : Type := mkNetwork {
  net_Dial : nat -> option error;               (* nil: a connection is returned *)
  net_Write : nat -> list Z -> Z * option error;  (* conn.Write(b): n, err *)
  net_Read : nat -> list Z * option error;        (* conn.Read(buf): the bytes stored, err *)
  net_Close : nat -> option error
}.

(** What the transporter does to the outside, in order. *)
Inductive event : Type :=
| EvPrintln                          (* fmt.Println("Connecting to", mb.Address) *)
| EvDial (k : nat)
| EvSleep                            (* time.Sleep(mb.ConnectDelay) *)
| EvWrite (c : nat) (b : list Z)
| EvRead (c : nat)
| EvClose (c : nat)
| EvLog (format : string) (b : list Z).

(** [solarmanTransporter] ([Timeout] and [ConnectDelay] only parametrise
    Dial and Sleep; the mutex serialises callers and the model is of one
    call at a time), followed by the position in the network's answers
    and the trace so far. *)
Record state : Type := mkState {
  Address : string;
  conn : option nat;
  Logger : bool;
  dials : nat;
  writes : nat;
  reads : nat;
  closes : nat;
  trace : list event
}.

(** A step returns or panics, and leaves a state. *)
Inductive step (A : Type) : Type :=
| Ret (a : A)
| Crash (p : panic).
Arguments Ret {A} a.
Arguments Crash {A} p.

Definition M (A : Type) : Type := state -> step A * state.

Definition ret {A} (a : A) : M A := fun st => (Ret a, st).

Definition mbind {A B} (m : M A) (k : A -> M B) : M B :=
  fun st => match m st with
            | (Ret a, st') => k a st'
            | (Crash p, st') => (Crash p, st')
            end.

Definition emit (e : event) : M unit :=
  fun st => (Ret tt, mkState (Address st) (conn st) (Logger st) (dials st)
                             (writes st) (reads st) (closes st) (trace st ++ [e])).

Definition get_conn : M (option nat) := fun st => (Ret (conn st), st).

Definition set_conn (c : option nat) : M unit :=
  fun st => (Ret tt, mkState (Address st) c (Logger st) (dials st)
                             (writes st) (reads st) (closes st) (trace st)).

(** The number of the next call of each kind; the counter moves on. *)
Definition next_dial : M nat :=
  fun st => (Ret (dials st), mkState (Address st) (conn st) (Logger st) (S (dials st))
                                     (writes st) (reads st) (closes st) (trace st)).
Definition next_write : M nat :=
  fun st => (Ret (writes st), mkState (Address st) (conn st) (Logger st) (dials st)
                                      (S (writes st)) (reads st) (closes st) (trace st)).
Definition next_read : M nat :=
  fun st => (Ret (reads st), mkState (Address st) (conn st) (Logger st) (dials st)
                                     (writes st) (S (reads st)) (closes st) (trace st)).
Definition next_close : M nat :=
  fun st => (Ret (closes st), mkState (Address st) (conn st) (Logger st) (dials st)
                                      (writes st) (reads st) (S (closes st)) (trace st)).

Definition crash {A} (p : panic) : M A := fun st => (Crash p, st).

Notation "x <-- m ;; k" := (mbind m (fun x => k))
  (at level 61, m at next level, right associativity).

Section WithNetwork.

Variable net : network.

(** [d.Dial("tcp", mb.Address)] *)
Definition Dial : M (option nat * option error) :=
  k <-- next_dial ;;
  _ <-- emit (EvDial k) ;;
  match net_Dial net k with
  | Some err => ret (None, Some err)
  | None => ret (Some k, None)
  end.

(** [mb.conn.Write(request)] *)
Definition conn_Write (request : slice) : M (Z * option error) :=
  c <-- get_conn ;;
  match c with
  | None => crash NilDeref
  | Some c =>
    k <-- next_write ;;
    _ <-- emit (EvWrite c (elems request)) ;;
    ret (net_Write net k (elems request))
  end.

(** [mb.conn.Read(raw_response)] into a buffer of 1024 bytes: the bytes
    stored, at most as many as the buffer holds, and the error. *)
Definition conn_Read : M (list Z * option error) :=
  c <-- get_conn ;;
  match c with
  | None => crash NilDeref
  | Some c =>
    k <-- next_read ;;
    _ <-- emit (EvRead c) ;;
    let '(stored, err) := net_Read net k in
    ret (firstn 1024 stored, err)
  end.

(** [mb.conn.Close()] *)
Definition conn_Close : M (option error) :=
  c <-- get_conn ;;
  match c with
  | None => crash NilDeref
  | Some c =>
    k <-- next_close ;;
    _ <-- emit (EvClose c) ;;
    ret (net_Close net k)
  end.

Definition connect : M (option error) :=
  _ <-- emit EvPrintln ;;
  c <-- get_conn ;;
  match c with
  | None =>
    r <-- Dial ;;
    match r with
    | (_, Some err) => ret (Some err)
    | (conn, None) =>
      _ <-- set_conn conn ;;
      _ <-- emit EvSleep ;;
      ret None
    end
  | Some _ =>
    _ <-- emit EvSleep ;;
    ret None
  end.

Definition reconnect : M (option error) :=
  c <-- get_conn ;;
  match c with
  | None => connect
  | Some _ =>
    _ <-- conn_Close ;;
    _ <-- set_conn None ;;
    connect
  end.

Definition write (request : slice) : M (option error) :=
  r <-- conn_Write request ;;
  let '(n, err) := r in
  match err with
  | Some e => ret (Some e)
  | None =>
    if n <? len request
    then ret (Some (ShortWrite n (len request)))
    else ret None
  end.

(** [read]: [response = raw_response[0:n]] of the 1024-byte buffer. *)
Definition read : M (slice * option error) :=
  r <-- conn_Read ;;
  let '(stored, err) := r in
  let response := mkSlice stored (repeat 0 (1024 - length stored)) in
  ret (response, err).

Definition logf (format : string) (b : slice) : M unit :=
  fun st => if Logger st then emit (EvLog format (elems b)) st else (Ret tt, st).

(** [Send] returns the pair [(aduResponse, err)]; a nil slice is [None]. *)
Definition Send (aduRequest : slice) : M (option slice * option error) :=
  err <-- connect ;;
  match err with
  | Some e => ret (None, Some (Wrapped "failed to connect to" e))
  | None =>
  err <-- write aduRequest ;;
  early <--
    (if errors_Is_EPIPE err then
       err <-- reconnect ;;
       match err with
       | Some e => ret (Some (None, Some (Wrapped "failed to reconnect to" e)))
       | None =>
         err <-- write aduRequest ;;
         match err with
         | Some e => ret (Some (None, Some (Wrapped "failed to write to" e)))
         | None => ret None
         end
       end
     else ret None) ;;
  match early with
  | Some returned => ret returned
  | None =>
  _ <-- logf "SENT" aduRequest ;;
  r <-- read ;;
  let '(aduResponse, err) := r in
  later <--
    (if errors_Is_EPIPE err then
       err <-- reconnect ;;
       match err with
       | Some e => ret (inl (None, Some (Wrapped "failed to reconnect to" e)))
       | None =>
         err <-- write aduRequest ;;
         match err with
         | Some e => ret (inl (None, Some (Wrapped "failed to write to" e)))
         | None =>
           r <-- read ;;
           let '(aduResponse, err) := r in
           match err with
           | Some e => ret (inl (None, Some (Wrapped "failed to read from" e)))
           | None => ret (inr (aduResponse, err))
           end
         end
       end
     else ret (inr (aduResponse, err))) ;;
  match later with
  | inl returned => ret returned
  | inr (aduResponse, err) =>
    _ <-- logf "RECD" aduResponse ;;
    ret (Some aduResponse, err)
  end
  end
  end.

(** [Connect]: [connect] under the mutex. *)
Definition Connect : M (option error) := connect.

(** [Close]: releases the socket if there is one; [mb.conn] is left as it is. *)
Definition Close : M (option error) :=
  c <-- get_conn ;;
  match c with
  | Some _ => conn_Close
  | None => ret None
  end.

End WithNetwork.

(** A transporter that has not connected yet, as [NewSolarmanClientHandler]
    leaves it. *)
Definition fresh (address : string) : state :=
  mkState address None false 0 0 0 0 [].

End Transport.

Import Binary CRC16 Codec.

(** ** Definitions that follow the specification's words *)

(** The sum of the bytes of a sequence. *)
Definition byte_sum (l : list Z) : Z := fold_right Z.add 0 l.

(** Reflected CRC-16: the register starts at 0xFFFF; each byte is xor-ed into
    it and then, eight times, the register is shifted right by one bit and
    the feedback polynomial 0xA001 is xor-ed in when the bit shifted out was
    set; the result is given as low byte, high byte. *)
Definition crc16_feedback (reg : Z) : Z :=
  if Z.testbit reg 0 then Z.lxor (reg / 2) 0xA001 else reg / 2.

Fixpoint crc16_reference_register (reg : Z) (data : list Z) : Z :=
  match data with
  | [] => reg
  | v :: rest =>
    crc16_reference_register
      (crc16_feedback (crc16_feedback (crc16_feedback (crc16_feedback
        (crc16_feedback (crc16_feedback (crc16_feedback (crc16_feedback
          (Z.lxor reg v)))))))))
      rest
  end.

Definition crc16_reference (data : list Z) : list Z :=
  let reg := crc16_reference_register 0xFFFF data in
  [reg mod 256; reg / 256].

(** Consecutive [Encode] calls on one packager: the packager after the last
    call and the frames in the order they were produced. *)
Fixpoint Encode_all (mb : solarmanPackager) (pdus : list ProtocolDataUnit)
  : solarmanPackager * list (list Z) :=
  match pdus with
  | [] => (mb, [])
  | pdu :: rest =>
    let '(mb, adu) := Encode mb pdu in
    let '(mb, adus) := Encode_all mb rest in
    (mb, adu :: adus)
  end.

(** ** Auxiliary definitions for stating the properties *)

(** A value of a Go [uint16]. *)
Definition is_u16 (x : Z) : Prop := 0 <= x < 65536.

(** The byte at an offset and the bytes between two offsets of a sequence,
    as total functions. *)
Definition byte_at (d : list Z) (i : Z) : Z := nth (Z.to_nat i) d 0.

Definition range (d : list Z) (lo hi : Z) : list Z :=
  firstn (Z.to_nat (hi - lo)) (skipn (Z.to_nat lo) d).

(** Little-endian integers at an offset. *)
Definition uint16_at (d : list Z) (i : Z) : Z :=
  Z.lor (byte_at d i) (Z.shiftl (byte_at d (i + 1)) 8).

Definition uint32_at (d : list Z) (i : Z) : Z :=
  Z.lor (Z.lor (Z.lor (byte_at d i) (Z.shiftl (byte_at d (i + 1)) 8))
               (Z.shiftl (byte_at d (i + 2)) 16))
        (Z.shiftl (byte_at d (i + 3)) 24).

(** The parts of a frame that [Parse] looks at. *)
Definition header_of (d : list Z) : Header :=
  mkHeader (byte_at d 0) (uint16_at d 1) (uint16_at d 3) (uint16_at d 5) (uint32_at d 7).

Definition outer_checksum (d : list Z) : Z :=
  CheckSum (of_list (range d 1 (Z.of_nat (length d) - 2))).

Definition rtu_of (d : list Z) : list Z := range d 25 (Z.of_nat (length d) - 2).

Definition rtu_crc_provided (d : list Z) : list Z :=
  range (rtu_of d) (Z.of_nat (length (rtu_of d)) - 2) (Z.of_nat (length (rtu_of d))).

Definition rtu_crc_expected (d : list Z) : list Z :=
  elems (CRCFromBytes (of_list (range (rtu_of d) 0 (Z.of_nat (length (rtu_of d)) - 2)))).

(** [Parse] as one decision list over the bytes of the frame; shown below to
    be what [Parse] computes on every input. *)
Definition Parse_cases (data : slice) : result parse_error Response :=
  let d := elems data in
  let n := len data in
  if n <? 11 then Err (DataTooShort n) else
  if negb (byte_at d 0 =? StartByte)
  then Err (FailedHeader (HdrBadStart StartByte (byte_at d 0))) else
  if negb (outer_checksum d =? byte_at d (n - 2))
  then Err (ChecksumMismatch (outer_checksum d) (byte_at d (n - 2))) else
  if n <? 13 then Panic (SliceBounds 11 (n - 2) (cap data)) else
  if negb (uint16_at d 1 =? (n - 13) mod 65536)
  then Err (InvalidLength (uint16_at d 1) ((n - 13) mod 65536)) else
  if n <? 27 then Panic (SliceBounds 25 (n - 2) (cap data)) else
  if n <? 32 then Err (InvalidRTU (n - 27)) else
  if negb (if list_eq_dec Z.eq_dec (rtu_crc_provided d) (rtu_crc_expected d)
           then true else false)
  then Err (CRCMismatch (rtu_crc_expected d) (rtu_crc_provided d)) else
  Ok (mkResponse
        (header_of d)
        (mkPayload (byte_at d 11) (byte_at d 12)
                   (uint32_at d 13) (uint32_at d 17) (uint32_at d 21)
                   (mkPDU (byte_at d 26)
                          (mkSlice (range d 27 (n - 4))
                                   (skipn (Z.to_nat (n - 4)) (d ++ spare data)))))
        (byte_at d (n - 1))).

(** An 11-byte frame with the right start marker and outer checksum. *)
Definition frame_of_11 : list Z :=
  [0xA5; 0x00; 0x00; 0x10; 0x15; 0x01; 0x00; 0x00; 0x00; 0x26; 0x15].

(** A 13-byte frame with the right start marker and outer checksum that
    declares the empty payload it has. *)
Definition frame_of_13 : list Z :=
  [0xA5; 0x00; 0x00; 0x10; 0x15; 0x01; 0x00; 0x4F; 0xAD; 0x6D; 0xA5; 0x34; 0x15].

(** The bytes a slice expression on [s] can reach: the visible ones and
    those up to the capacity. *)
Definition backing (s : slice) : list Z := elems s ++ spare s.

(** [Verify] as one decision list over the bytes of the two frames; shown
    below to be what [Verify] computes on every input. *)
Definition Verify_cases (aduRequest aduResponse : slice) : result verify_error unit :=
  let q := backing aduRequest in
  let r := elems aduResponse in
  let n := len aduResponse in
  if n <? 11 then Err (ResponseTooShort n) else
  if negb (byte_at r 0 =? StartByte)
  then Err (InvalidStartByte StartByte (byte_at r 0)) else
  if negb (outer_checksum r =? byte_at r (n - 2))
  then Err (VerifyChecksumMismatch (outer_checksum r) (byte_at r (n - 2))) else
  if cap aduRequest <? 6 then Panic (SliceBounds 5 6 (cap aduRequest)) else
  if negb (byte_at q 5 =? byte_at r 5) then Panic (IndexRange 1 1) else
  if negb (uint16_at r 3 =? (uint16_at q 3 - 0x3000) mod 65536)
  then Err (ControlCodeMismatch ((uint16_at q 3 - 0x3000) mod 65536) (uint16_at r 3)) else
  if cap aduRequest <? 11 then Panic (SliceBounds 7 11 (cap aduRequest)) else
  if negb (if list_eq_dec Z.eq_dec (range q 7 11) (range r 7 11) then true else false)
  then Err (SerialMismatch (range q 7 11) (range r 7 11)) else
  Ok tt.

(** The request and the response of the package's Verify test, and that
    response with another sequence number (and the checksum that goes with it). *)
Definition verify_request : list Z :=
  [0xA5; 0x0E; 0x00; 0x10; 0x45; 0x01; 0x00; 0x4F; 0xAD; 0x6D; 0xA5].

Definition verify_response : list Z :=
  [0xA5; 0x0E; 0x00; 0x10; 0x15; 0x01; 0x00; 0x4F; 0xAD; 0x6D; 0xA5; 0x42; 0x15].

Definition verify_response_other_sequence : list Z :=
  [0xA5; 0x0E; 0x00; 0x10; 0x15; 0x02; 0x00; 0x4F; 0xAD; 0x6D; 0xA5; 0x43; 0x15].

(** The transporter after some more calls: [c] is the connection it holds
    now, the counters have moved on and [evs] has been appended to the trace. *)
Definition advance (st : Transport.state) (c : option nat) (dd ww rr cc : nat)
           (evs : list Transport.event) : Transport.state :=
  Transport.mkState (Transport.Address st) c (Transport.Logger st)
                    (dd + Transport.dials st) (ww + Transport.writes st)
                    (rr + Transport.reads st) (cc + Transport.closes st)
                    (Transport.trace st ++ evs).

(** What [logf] adds to the trace. *)
Definition logged (st : Transport.state) (format : string) (b : slice)
  : list Transport.event :=
  if Transport.Logger st then [Transport.EvLog format (elems b)] else [].

(** The error [write] returns when its [conn.Write] is the k-th of the network. *)
Definition write_error (net : Transport.network) (k : nat) (request : slice)
  : option Transport.error :=
  match Transport.net_Write net k (elems request) with
  | (_, Some e) => Some e
  | (n, None) => if n <? len request
                 then Some (Transport.ShortWrite n (len request))
                 else None
  end.

(** What [read] returns when its [conn.Read] is the k-th of the network. *)
Definition read_result (net : Transport.network) (k : nat)
  : slice * option Transport.error :=
  let stored := firstn 1024 (fst (Transport.net_Read net k)) in
  (mkSlice stored (repeat 0 (1024 - length stored)), snd (Transport.net_Read net k)).

(** A network that resets the connection under the first write
    (ECONNRESET, which is not EPIPE) and then delivers a response. *)
Definition net_reset : Transport.network :=
  Transport.mkNetwork
    (fun _ => None)
    (fun k b => match k with
                | O => (0, Some (Transport.Wrapped "write tcp" (Transport.Errno 104)))
                | S _ => (Z.of_nat (length b), None)
                end)
    (fun _ => (verify_response, None))
    (fun _ => None).

(** A network whose first write fails with a broken pipe and that works
    after the reconnect. *)
Definition net_write_pipe : Transport.network :=
  Transport.mkNetwork
    (fun _ => None)
    (fun k b => match k with
                | O => (0, Some (Transport.Wrapped "write tcp" Transport.EPIPE))
                | S _ => (Z.of_nat (length b), None)
                end)
    (fun _ => (verify_response, None))
    (fun _ => None).

(** A network whose first read fails with a broken pipe and that works
    after the reconnect. *)
Definition net_read_pipe : Transport.network :=
  Transport.mkNetwork
    (fun _ => None)
    (fun k b => (Z.of_nat (length b), None))
    (fun k => match k with
              | O => ([], Some (Transport.Wrapped "read tcp" Transport.EPIPE))
              | S _ => (verify_response, None)
              end)
    (fun _ => None).

(** A network whose first write and whose first read each fail with a broken
    pipe, and that works otherwise. *)
Definition net_pipes : Transport.network :=
  Transport.mkNetwork
    (fun _ => None)
    (fun k b => match k with
                | O => (0, Some (Transport.Wrapped "write tcp" Transport.EPIPE))
                | S _ => (Z.of_nat (length b), None)
                end)
    (fun k => match k with
              | O => ([], Some (Transport.Wrapped "read tcp" Transport.EPIPE))
              | S _ => (verify_response, None)
              end)
    (fun _ => None).

(** A network on which every write and every read is refused the way Go
    refuses them on a connection that has been closed (net.ErrClosed in a
    *net.OpError, which is not EPIPE). *)
Definition net_closed : Transport.network :=
  Transport.mkNetwork
    (fun _ => None)
    (fun _ _ => (0, Some (Transport.Wrapped "write tcp"
                            (Transport.Other "use of closed network connection"))))
    (fun _ => ([], Some (Transport.Wrapped "read tcp"
                           (Transport.Other "use of closed network connection"))))
    (fun _ => None).

(** [net_read_pipe] with a first write that stops one byte short. *)
Definition net_short_write : Transport.network :=
  Transport.mkNetwork
    (fun _ => None)
    (fun k b => match k with
                | O => (Z.of_nat (length b) - 1, None)
                | S _ => (Z.of_nat (length b), None)
                end)
    (fun k => match k with
              | O => ([], Some (Transport.Wrapped "read tcp" Transport.EPIPE))
              | S _ => (verify_response, None)
              end)
    (fun _ => None).

(** The transporter of the package's Send test once it has connected. *)
Definition connected_transporter : Transport.state :=
  advance (Transport.fresh "192.168.1.1:8899") (Some 0%nat) 1 0 0 0
          [Transport.EvPrintln; Transport.EvDial 0; Transport.EvSleep].

(** The response of the package's Decode test without its end marker, and
    its first 25 bytes: header, frame type, status and the three timing
    fields. *)
Definition decode_test_body : list Z :=
  [0xA5; 0x16; 0x00; 0x10; 0x45; 0x01; 0x02; 0x12; 0x34; 0x56; 0x78;
   0x02; 0x01; 0x10; 0x00; 0x00; 0x00; 0x20; 0x00; 0x00; 0x00; 0x30; 0x00; 0x00; 0x00;
   0x01; 0x03; 0x02; 0x71; 0x00; 0x01; 0xd5; 0xa9; 0xDB].

Definition decode_test_prefix : list Z := firstn 25 decode_test_body.

(** The frame that [Encode] builds, part by part. *)
Definition encoded_payload (mb : solarmanPackager) (pdu : ProtocolDataUnit) : list Z :=
  [0x02; 0; 0; 0; 0; 0; 0; 0; 0; 0; 0; 0; 0; 0; 0; SlaveID mb; FunctionCode pdu]
  ++ elems (Data pdu) ++ elems (CRC (SlaveID mb) pdu).

Definition encoded_header (mb : solarmanPackager) (pdu : ProtocolDataUnit) : list Z :=
  let l := Z.of_nat (length (encoded_payload mb pdu)) mod 65536 in
  [0xA5; l mod 256; Z.shiftr l 8 mod 256; 0x10; 0x45; (serial mb + 1) mod 256; 0x00;
   LoggerSerial mb mod 256; Z.shiftr (LoggerSerial mb) 8 mod 256;
   Z.shiftr (LoggerSerial mb) 16 mod 256; Z.shiftr (LoggerSerial mb) 24 mod 256].

(** ** Slices *)

Section SliceFacts.

Context {E : Type}.

Lemma len_nonneg (s : slice) : 0 <= len s.
Proof. unfold len. lia. Qed.

Lemma len_le_cap (s : slice) : len s <= cap s.
Proof. unfold len, cap. lia. Qed.

(** A slice expression within the capacity succeeds. *)
Lemma sub_ok (s : slice) (lo hi : Z) :
  0 <= lo <= hi -> hi <= cap s ->
  @sub E s lo hi =
  Ok (mkSlice (range (elems s ++ spare s) lo hi)
              (skipn (Z.to_nat hi) (elems s ++ spare s))).
Proof.
  intros [Hlo Hhi] Hcap. unfold sub, range.
  assert (H : (0 <=? lo) && (lo <=? hi) && (hi <=? cap s) = true).
  { rewrite !andb_true_iff, !Z.leb_le. lia. }
  rewrite H. reflexivity.
Qed.

(** Within the length, the visible bytes of the result come from the
    visible bytes of the operand. *)
Lemma sub_within (s : slice) (lo hi : Z) :
  0 <= lo <= hi -> hi <= len s ->
  @sub E s lo hi =
  Ok (mkSlice (range (elems s) lo hi)
              (skipn (Z.to_nat hi) (elems s ++ spare s))).
Proof.
  intros Hlo Hhi. rewrite sub_ok; [| assumption | pose proof (len_le_cap s); lia].
  unfold len in Hhi. unfold range. do 2 f_equal.
  rewrite skipn_app, firstn_app, length_skipn.
  replace (Z.to_nat (hi - lo) - (length (elems s) - Z.to_nat lo))%nat with 0%nat by lia.
  rewrite firstn_O, app_nil_r. reflexivity.
Qed.

(** A slice expression whose bounds are inverted panics. *)
Lemma sub_inverted (s : slice) (lo hi : Z) :
  hi < lo -> @sub E s lo hi = Panic (SliceBounds lo hi (cap s)).
Proof.
  intros H. unfold sub.
  assert (Hb : (0 <=? lo) && (lo <=? hi) && (hi <=? cap s) = false).
  { rewrite !andb_false_iff, !Z.leb_gt. lia. }
  rewrite Hb. reflexivity.
Qed.

(** A slice expression past the capacity panics. *)
Lemma sub_past_cap (s : slice) (lo hi : Z) :
  cap s < hi -> @sub E s lo hi = Panic (SliceBounds lo hi (cap s)).
Proof.
  intros H. unfold sub.
  assert (Hb : (0 <=? lo) && (lo <=? hi) && (hi <=? cap s) = false).
  { rewrite !andb_false_iff, !Z.leb_gt. lia. }
  rewrite Hb. reflexivity.
Qed.

Lemma index_ok (s : slice) (i : Z) :
  0 <= i < len s -> @index E s i = Ok (byte_at (elems s) i).
Proof.
  intros H. unfold index, byte_at.
  assert (Hb : (0 <=? i) && (i <? len s) = true).
  { rewrite andb_true_iff, Z.leb_le, Z.ltb_lt. lia. }
  rewrite Hb. unfold len in H.
  destruct (nth_error (elems s) (Z.to_nat i)) eqn:Hn.
  - rewrite (nth_error_nth _ _ 0 Hn). reflexivity.
  - apply nth_error_None in Hn. lia.
Qed.

Lemma index_out (s : slice) (i : Z) :
  len s <= i -> @index E s i = Panic (IndexRange i (len s)).
Proof.
  intros H. unfold index.
  assert (Hb : (0 <=? i) && (i <? len s) = false).
  { rewrite andb_false_iff, Z.leb_gt, Z.ltb_ge. lia. }
  rewrite Hb. reflexivity.
Qed.

End SliceFacts.

Lemma bytes_Equal_true (a b : slice) : bytes_Equal a b = true <-> elems a = elems b.
Proof.
  unfold bytes_Equal. destruct (list_eq_dec Z.eq_dec (elems a) (elems b)); split;
    intros; try reflexivity; try assumption; try discriminate; contradiction.
Qed.

Lemma bytes_Equal_false (a b : slice) : bytes_Equal a b = false <-> elems a <> elems b.
Proof.
  unfold bytes_Equal. destruct (list_eq_dec Z.eq_dec (elems a) (elems b)); split;
    intros; try reflexivity; try assumption; try discriminate; contradiction.
Qed.

(** ** CheckSum *)

Lemma land_255 (v : Z) : Z.land v 0xFF = v mod 256.
Proof. change 0xFF with (Z.ones 8). rewrite Z.land_ones by lia. reflexivity. Qed.

Lemma CheckSum_loop (l : list Z) (acc : Z) :
  fold_left (fun checksum v => (checksum + Z.land v 0xFF) mod 256) l acc mod 256
  = (acc + byte_sum l) mod 256.
Proof.
  revert acc. induction l as [| v l IH]; intros acc; simpl.
  - rewrite Z.add_0_r. reflexivity.
  - rewrite IH, land_255.
    rewrite Z.add_mod_idemp_l by lia.
    rewrite <- Z.add_assoc, (Z.add_comm (v mod 256)), Z.add_assoc.
    rewrite Z.add_mod_idemp_r by lia.
    f_equal. lia.
Qed.

(** C8: [CheckSum] of any byte sequence is the sum of its bytes reduced
    modulo 256 (whatever the sum is, in particular above 255); on
    [0x01,0x02,0x03,0x04] it is [0x0A], on the empty sequence [0x00]. *)
Theorem CheckSum_is_sum_mod_256 :
  (forall b : slice, CheckSum b = byte_sum (elems b) mod 256) /\
  CheckSum (of_list [0x01; 0x02; 0x03; 0x04]) = 0x0A /\
  CheckSum (of_list []) = 0x00 /\
  CheckSum (of_list [0xFF; 0x02]) = 0x01.
Proof.
  split; [| repeat split].
  intros b. unfold CheckSum. rewrite land_255, CheckSum_loop. reflexivity.
Qed.

(** ** CRC-16 *)

Lemma testbit_above_u16 (a n : Z) : is_u16 a -> 16 <= n -> Z.testbit a n = false.
Proof.
  unfold is_u16. intros Ha Hn.
  rewrite <- (Z.mod_small a (2 ^ 16)) by lia.
  apply Z.mod_pow2_bits_high. lia.
Qed.

Lemma lxor_u16 (a b : Z) : is_u16 a -> is_u16 b -> is_u16 (Z.lxor a b).
Proof.
  intros Ha Hb.
  assert (H : Z.lxor a b mod 2 ^ 16 = Z.lxor a b).
  { apply Z.bits_inj'. intros n Hn.
    destruct (Z_lt_le_dec n 16) as [Hlt | Hge].
    - apply Z.mod_pow2_bits_low. lia.
    - rewrite Z.mod_pow2_bits_high by lia.
      rewrite Z.lxor_spec, !testbit_above_u16 by assumption. reflexivity. }
  unfold is_u16. rewrite <- H.
  pose proof (Z.mod_pos_bound (Z.lxor a b) (2 ^ 16)). lia.
Qed.

Lemma shiftr_1 (c : Z) : Z.shiftr c 1 = c / 2.
Proof. rewrite Z.shiftr_div_pow2 by lia. reflexivity. Qed.

Lemma crc_shift_u16 (c : Z) : is_u16 c -> is_u16 (crc_shift c).
Proof.
  intros H. unfold crc_shift. rewrite shiftr_1.
  assert (Hh : is_u16 (c / 2)).
  { unfold is_u16 in *. split; [apply Z.div_pos; lia |].
    apply Z.div_lt_upper_bound; lia. }
  destruct (Z.land c 1 =? 0); [assumption |].
  apply lxor_u16; [assumption | unfold is_u16; lia].
Qed.

Lemma crc_byte_u16 (c v : Z) : is_u16 c -> is_byte v -> is_u16 (crc_byte c v).
Proof.
  intros Hc Hv. unfold crc_byte.
  assert (H : is_u16 (Z.lxor c v)).
  { apply lxor_u16; [assumption | unfold is_u16, is_byte in *; lia]. }
  simpl. repeat apply crc_shift_u16. assumption.
Qed.

Lemma crc_fold_u16 (data : list Z) (c : Z) :
  is_u16 c -> Forall is_byte data -> is_u16 (fold_left crc_byte data c).
Proof.
  revert c. induction data as [| v data IH]; intros c Hc Hd; simpl.
  - assumption.
  - inversion Hd; subst. apply IH; [apply crc_byte_u16 |]; assumption.
Qed.

Lemma crc_register_u16 (data : list Z) :
  Forall is_byte data -> is_u16 (crc_register data).
Proof. intros H. apply crc_fold_u16; [unfold is_u16; lia | assumption]. Qed.

(** The loop body of the code is the feedback step of the specification. *)
Lemma crc_shift_feedback (c : Z) : crc_shift c = crc16_feedback c.
Proof.
  unfold crc_shift, crc16_feedback. rewrite shiftr_1.
  change 1 with (Z.ones 1) at 1. rewrite Z.land_ones by lia.
  change (2 ^ 1) with 2. rewrite <- Z.bit0_mod.
  destruct (Z.testbit c 0); reflexivity.
Qed.

Lemma crc_fold_reference (data : list Z) (c : Z) :
  fold_left crc_byte data c = crc16_reference_register c data.
Proof.
  revert c. induction data as [| v data IH]; intros c; simpl.
  - reflexivity.
  - rewrite IH. unfold crc_byte. simpl. rewrite !crc_shift_feedback. reflexivity.
Qed.

(** C9: [CRCFromBytes] is a function of the visible bytes alone; on bytes it
    is the reflected CRC-16 of the specification (feedback 0xA001, register
    initially 0xFFFF, eight steps per byte, low byte first); on
    [0x01,0x03,0x02,0x71,0x00,0x01] it gives [0xD5, 0xA9], and on the ASCII
    digits 1 to 9 the check value 0x4B37 of that CRC. *)
Theorem CRCFromBytes_reference :
  (forall a b : slice, elems a = elems b -> CRCFromBytes a = CRCFromBytes b) /\
  (forall data : slice, Forall is_byte (elems data) ->
     elems (CRCFromBytes data) = crc16_reference (elems data)) /\
  elems (CRCFromBytes (of_list [0x01; 0x03; 0x02; 0x71; 0x00; 0x01])) = [0xD5; 0xA9] /\
  elems (CRCFromBytes (of_list [49; 50; 51; 52; 53; 54; 55; 56; 57])) = [0x37; 0x4B].
Proof.
  split; [| split; [| split; vm_compute; reflexivity]].
  - intros a b H. unfold CRCFromBytes. rewrite H. reflexivity.
  - intros data H. unfold CRCFromBytes, crc16_reference, crc_register. simpl.
    rewrite <- crc_fold_reference.
    pose proof (crc_fold_u16 (elems data) 0xFFFF) as Hr.
    assert (Hu : is_u16 (fold_left crc_byte (elems data) 65535)).
    { apply Hr; [unfold is_u16; lia | assumption]. }
    set (reg := fold_left crc_byte (elems data) 65535) in *.
    rewrite Z.shiftr_div_pow2 by lia. change (2 ^ 8) with 256.
    f_equal. f_equal. unfold is_u16 in Hu.
    apply Z.mod_small. split; [apply Z.div_pos; lia |].
    apply Z.div_lt_upper_bound; lia.
Qed.

Lemma CRCFromBytes_reference_witness :
  elems (CRCFromBytes (of_list [0x01; 0x03; 0x02; 0x71; 0x00; 0x01]))
  = crc16_reference [0x01; 0x03; 0x02; 0x71; 0x00; 0x01].
Proof.
  apply (proj1 (proj2 CRCFromBytes_reference)).
  simpl. repeat constructor; unfold is_byte; lia.
Defined.


(** The register update is injective: two different registers stay
    different whatever bytes follow. *)

Lemma testbit_15_below (x : Z) : 0 <= x < 32768 -> Z.testbit x 15 = false.
Proof.
  intros H. rewrite <- (Z.mod_small x (2 ^ 15)) by lia.
  apply Z.mod_pow2_bits_high. lia.
Qed.

Lemma lxor_cancel_r (a b k : Z) : Z.lxor a k = Z.lxor b k -> a = b.
Proof.
  intros H. apply (f_equal (fun z => Z.lxor z k)) in H.
  rewrite !Z.lxor_assoc, !Z.lxor_nilpotent, !Z.lxor_0_r in H. exact H.
Qed.

Lemma half_lt (a : Z) : is_u16 a -> 0 <= a / 2 < 32768.
Proof.
  unfold is_u16. intros H. split; [apply Z.div_pos; lia |].
  apply Z.div_lt_upper_bound; lia.
Qed.

Lemma feedback_sets_bit_15 (q : Z) :
  0 <= q < 32768 -> Z.testbit (Z.lxor q 0xA001) 15 = true.
Proof. intros H. rewrite Z.lxor_spec, testbit_15_below by assumption. reflexivity. Qed.

Lemma crc_shift_inj (a b : Z) :
  is_u16 a -> is_u16 b -> crc_shift a = crc_shift b -> a = b.
Proof.
  intros Ha Hb. unfold crc_shift. rewrite !shiftr_1.
  change 1 with (Z.ones 1). rewrite !Z.land_ones by lia. change (2 ^ 1) with 2.
  pose proof (half_lt a Ha) as Hqa. pose proof (half_lt b Hb) as Hqb.
  pose proof (Z.div_mod a 2) as Da. pose proof (Z.div_mod b 2) as Db.
  pose proof (Z.mod_pos_bound a 2) as Ra. pose proof (Z.mod_pos_bound b 2) as Rb.
  destruct (a mod 2 =? 0) eqn:Ea; destruct (b mod 2 =? 0) eqn:Eb; intros H.
  - apply Z.eqb_eq in Ea, Eb. lia.
  - exfalso. pose proof (feedback_sets_bit_15 (b / 2) Hqb) as Hbit.
    rewrite <- H, testbit_15_below in Hbit by assumption. discriminate.
  - exfalso. pose proof (feedback_sets_bit_15 (a / 2) Hqa) as Hbit.
    rewrite H, testbit_15_below in Hbit by assumption. discriminate.
  - apply lxor_cancel_r in H. apply Z.eqb_neq in Ea, Eb. lia.
Qed.

Lemma crc_byte_inj (a b v : Z) :
  is_u16 a -> is_u16 b -> is_byte v -> crc_byte a v = crc_byte b v -> a = b.
Proof.
  intros Ha Hb Hv. unfold crc_byte. cbn [Nat.iter].
  assert (Hv16 : is_u16 v) by (unfold is_u16, is_byte in *; lia).
  pose proof (lxor_u16 a v Ha Hv16) as Xa. pose proof (lxor_u16 b v Hb Hv16) as Xb.
  intros H.
  do 8 (apply crc_shift_inj in H; [| repeat apply crc_shift_u16; assumption
                                    | repeat apply crc_shift_u16; assumption]).
  apply lxor_cancel_r in H. exact H.
Qed.

Lemma crc_fold_inj (data : list Z) :
  Forall is_byte data ->
  forall a b : Z, is_u16 a -> is_u16 b ->
    fold_left crc_byte data a = fold_left crc_byte data b -> a = b.
Proof.
  induction 1 as [| v data Hv Hd IH]; intros a b Ha Hb H; cbn [fold_left] in H.
  - exact H.
  - apply IH in H; [| apply crc_byte_u16; assumption | apply crc_byte_u16; assumption].
    apply crc_byte_inj in H; assumption.
Qed.

(** A zero byte in front changes the register. *)
Lemma crc_register_leading_zero (data : list Z) :
  Forall is_byte data -> crc_register (0 :: data) <> crc_register data.
Proof.
  intros Hd H. unfold crc_register in H. cbn [fold_left] in H.
  apply crc_fold_inj in H; try assumption.
  - vm_compute in H. discriminate.
  - apply crc_byte_u16; [unfold is_u16 | unfold is_byte]; lia.
  - unfold is_u16. lia.
Qed.

(** The two bytes of the result determine the register. *)
Lemma CRCFromBytes_inj (a b : list Z) :
  Forall is_byte a -> Forall is_byte b ->
  elems (CRCFromBytes (of_list a)) = elems (CRCFromBytes (of_list b)) ->
  crc_register a = crc_register b.
Proof.
  intros Ha Hb. unfold CRCFromBytes, of_list. cbn [elems].
  pose proof (crc_register_u16 a Ha) as Ua. pose proof (crc_register_u16 b Hb) as Ub.
  rewrite !Z.shiftr_div_pow2 by lia. change (2 ^ 8) with 256.
  intros H. injection H as Hlo Hhi.
  unfold is_u16 in *.
  assert (Qa : 0 <= crc_register a / 256 < 256).
  { split; [apply Z.div_pos; lia | apply Z.div_lt_upper_bound; lia]. }
  assert (Qb : 0 <= crc_register b / 256 < 256).
  { split; [apply Z.div_pos; lia | apply Z.div_lt_upper_bound; lia]. }
  rewrite !Z.mod_small in Hhi by assumption.
  pose proof (Z.div_mod (crc_register a) 256). pose proof (Z.div_mod (crc_register b) 256).
  lia.
Qed.

(** ** The frame that Encode builds *)
Lemma uint16ToBytes_SensorType : uint16ToBytes SensorType = [0; 0].
Proof. reflexivity. Qed.

Lemma uint16ToBytes_ControlCodeRequest : uint16ToBytes ControlCodeRequest = [0x10; 0x45].
Proof. reflexivity. Qed.

Lemma uint32ToBytes_zero : uint32ToBytes 0 = [0; 0; 0; 0].
Proof. reflexivity. Qed.

Lemma Encode_eq (mb : solarmanPackager) (pdu : ProtocolDataUnit) :
  Encode mb pdu =
  (mkPackager (SlaveID mb) (LoggerSerial mb) ((serial mb + 1) mod 256),
   encoded_header mb pdu ++ encoded_payload mb pdu ++
   [CheckSum (of_list (skipn 1 (encoded_header mb pdu ++ encoded_payload mb pdu)));
    EndByte]).
Proof.
  unfold Encode, getNextSerial, WriteByte, Write.
  rewrite uint16ToBytes_SensorType, uint16ToBytes_ControlCodeRequest.
  unfold TotalWorkingTime, PowerOnTime, OffsetTime. rewrite uint32ToBytes_zero.
  unfold uint16ToBytes, uint32ToBytes, LittleEndian_PutUint16, LittleEndian_PutUint32,
    encoded_header, encoded_payload, StartByte, FrameType.
  cbn [app LoggerSerial SlaveID serial].
  rewrite <- !app_assoc. reflexivity.
Qed.

(** ** The sequence counter *)

Lemma Encode_packager (mb : solarmanPackager) (pdu : ProtocolDataUnit) :
  fst (Encode mb pdu) = mkPackager (SlaveID mb) (LoggerSerial mb) ((serial mb + 1) mod 256).
Proof. rewrite Encode_eq. reflexivity. Qed.

Lemma Encode_offset_5 (mb : solarmanPackager) (pdu : ProtocolDataUnit) :
  nth_error (snd (Encode mb pdu)) 5 = Some ((serial mb + 1) mod 256).
Proof. rewrite Encode_eq. unfold encoded_header. reflexivity. Qed.

Lemma Encode_all_cons (mb : solarmanPackager) (pdu : ProtocolDataUnit)
      (rest : list ProtocolDataUnit) :
  Encode_all mb (pdu :: rest) =
  (fst (Encode_all (fst (Encode mb pdu)) rest),
   snd (Encode mb pdu) :: snd (Encode_all (fst (Encode mb pdu)) rest)).
Proof.
  cbn [Encode_all]. destruct (Encode mb pdu) as [mb1 adu]. cbn [fst snd].
  destruct (Encode_all mb1 rest) as [mb2 adus]. reflexivity.
Qed.

Lemma Encode_all_frames (pdus : list ProtocolDataUnit) :
  forall (mb : solarmanPackager) (k : nat),
    (1 <= k <= length pdus)%nat ->
    exists adu, nth_error (snd (Encode_all mb pdus)) (k - 1) = Some adu /\
                nth_error adu 5 = Some ((serial mb + Z.of_nat k) mod 256).
Proof.
  induction pdus as [| pdu rest IH]; intros mb k Hk; simpl in Hk; [lia |].
  rewrite Encode_all_cons. cbn [snd].
  destruct (Nat.eq_dec k 1) as [-> | Hne].
  - exists (snd (Encode mb pdu)). split; [reflexivity | apply Encode_offset_5].
  - destruct (IH (fst (Encode mb pdu)) (k - 1)%nat) as [adu [Hn H5]]; [lia |].
    exists adu. split.
    + replace (k - 1)%nat with (S (k - 1 - 1)) by lia. exact Hn.
    + rewrite H5, Encode_packager. cbn [serial].
      rewrite Z.add_mod_idemp_l by lia. do 2 f_equal. lia.
Qed.

Lemma Encode_all_packager (pdus : list ProtocolDataUnit) :
  forall mb : solarmanPackager,
    SlaveID (fst (Encode_all mb pdus)) = SlaveID mb /\
    LoggerSerial (fst (Encode_all mb pdus)) = LoggerSerial mb /\
    length (snd (Encode_all mb pdus)) = length pdus.
Proof.
  induction pdus as [| pdu rest IH]; intros mb; [repeat split |].
  rewrite Encode_all_cons. cbn [fst snd length].
  destruct (IH (fst (Encode mb pdu))) as [Hs [Hl Hn]].
  rewrite Hs, Hl, Hn, Encode_packager. repeat split.
Qed.

(** C7: the sequence counter is one byte, incremented before each frame and
    wrapping modulo 256: of n consecutive [Encode] calls starting from the
    counter value c, the k-th (k = 1..n) produces a frame whose byte at
    offset 5 is (c + k) mod 256; a call leaves the packager's slave id and
    logger serial as they were and only advances the counter. *)
Theorem Encode_sequence_counter (mb : solarmanPackager) (pdus : list ProtocolDataUnit) :
  (forall k : nat, (1 <= k <= length pdus)%nat ->
     exists adu, nth_error (snd (Encode_all mb pdus)) (k - 1) = Some adu /\
                 nth_error adu 5 = Some ((serial mb + Z.of_nat k) mod 256)) /\
  length (snd (Encode_all mb pdus)) = length pdus /\
  SlaveID (fst (Encode_all mb pdus)) = SlaveID mb /\
  LoggerSerial (fst (Encode_all mb pdus)) = LoggerSerial mb /\
  (forall pdu : ProtocolDataUnit,
     fst (Encode mb pdu) =
     mkPackager (SlaveID mb) (LoggerSerial mb) ((serial mb + 1) mod 256)).
Proof.
  destruct (Encode_all_packager pdus mb) as [Hs [Hl Hn]].
  split; [intros k Hk; apply Encode_all_frames; assumption |].
  split; [assumption |]. split; [assumption |]. split; [assumption |].
  intros pdu. apply Encode_packager.
Qed.

(** Three frames from the counter value 254: the third carries 1. *)
Lemma Encode_sequence_counter_witness :
  exists adu,
    nth_error (snd (Encode_all (mkPackager 0x01 0x12345678 254)
                               [mkPDU 3 (of_list [0; 1; 0; 2]);
                                mkPDU 3 (of_list [0; 1; 0; 2]);
                                mkPDU 3 (of_list [0; 1; 0; 2])])) (3 - 1) = Some adu /\
    nth_error adu 5 = Some ((254 + Z.of_nat 3) mod 256).
Proof.
  apply (proj1 (Encode_sequence_counter (mkPackager 0x01 0x12345678 254)
                  [mkPDU 3 (of_list [0; 1; 0; 2]);
                   mkPDU 3 (of_list [0; 1; 0; 2]);
                   mkPDU 3 (of_list [0; 1; 0; 2])]) 3%nat).
  simpl. lia.
Defined.

(** ** Parse, case by case *)

Lemma range_length (d : list Z) (lo hi : Z) :
  0 <= lo <= hi -> hi <= Z.of_nat (length d) ->
  Z.of_nat (length (range d lo hi)) = hi - lo.
Proof.
  intros H1 H2. unfold range. rewrite length_firstn, length_skipn. lia.
Qed.

Lemma byte_at_range (d : list Z) (lo hi k : Z) :
  0 <= lo -> 0 <= k < hi - lo -> byte_at (range d lo hi) k = byte_at d (lo + k).
Proof.
  intros H1 H2. unfold byte_at, range. rewrite nth_firstn, nth_skipn.
  assert (Hlt : (Z.to_nat k <? Z.to_nat (hi - lo))%nat = true)
    by (apply Nat.ltb_lt; lia).
  rewrite Hlt. f_equal. lia.
Qed.

Lemma len_range (d sp : list Z) (lo hi : Z) :
  0 <= lo <= hi -> hi <= Z.of_nat (length d) ->
  len (mkSlice (range d lo hi) sp) = hi - lo.
Proof. intros H1 H2. unfold len. cbn [elems]. apply range_length; assumption. Qed.

Ltac split_head d H :=
  let e := fresh "e" in
  destruct d as [| e d]; [cbn [length] in H; lia |].

Lemma ParseHeader_prefix (d sp : list Z) :
  11 <= Z.of_nat (length d) ->
  ParseHeader (mkSlice (range d 0 11) sp) =
  if negb (byte_at d 0 =? StartByte)
  then Err (HdrBadStart StartByte (byte_at d 0))
  else Ok (header_of d).
Proof.
  intros H. do 11 split_head d H.
  unfold ParseHeader, range, len, header_of, uint16_at, uint32_at, byte_at.
  change (Z.to_nat (11 - 0)) with 11%nat.
  change (Z.to_nat 0) with 0%nat. change (Z.to_nat (1 + 1)) with 2%nat.
  change (Z.to_nat 1) with 1%nat. change (Z.to_nat (3 + 1)) with 4%nat.
  change (Z.to_nat 3) with 3%nat. change (Z.to_nat (5 + 1)) with 6%nat.
  change (Z.to_nat 5) with 5%nat. change (Z.to_nat 7) with 7%nat.
  change (Z.to_nat (7 + 1)) with 8%nat. change (Z.to_nat (7 + 2)) with 9%nat.
  change (Z.to_nat (7 + 3)) with 10%nat.
  cbn [firstn skipn elems length nth ReadByte Read_uint16 Read_uint32].
  change (Z.of_nat 11 <? 11) with false. cbv iota.
  destruct (negb (e =? StartByte)); reflexivity.
Qed.

Lemma range_range (d : list Z) (lo hi a b : Z) :
  0 <= lo -> 0 <= a <= b -> b <= hi - lo ->
  range (range d lo hi) a b = range d (lo + a) (lo + b).
Proof.
  intros Hlo Hab Hb. unfold range.
  rewrite skipn_firstn_comm, firstn_firstn, skipn_skipn.
  f_equal; [lia | f_equal; lia].
Qed.

Lemma range_then_rest (d sp : list Z) (lo hi : Z) :
  0 <= lo <= hi -> hi <= Z.of_nat (length d) ->
  range d lo hi ++ skipn (Z.to_nat hi) (d ++ sp) = skipn (Z.to_nat lo) (d ++ sp).
Proof.
  intros H1 H2. unfold range.
  replace (firstn (Z.to_nat (hi - lo)) (skipn (Z.to_nat lo) d))
    with (firstn (Z.to_nat (hi - lo)) (skipn (Z.to_nat lo) (d ++ sp))).
  - replace (Z.to_nat hi) with (Z.to_nat (hi - lo) + Z.to_nat lo)%nat by lia.
    rewrite <- skipn_skipn. apply firstn_skipn.
  - rewrite skipn_app, firstn_app, length_skipn.
    replace (Z.to_nat (hi - lo) - (length d - Z.to_nat lo))%nat with 0%nat by lia.
    rewrite firstn_O, app_nil_r. reflexivity.
Qed.

Lemma Uint32_range {E : Type} (d sp : list Z) (i hi : Z) :
  hi = i + 4 -> 0 <= i -> hi <= Z.of_nat (length d) ->
  @LittleEndian_Uint32 E (mkSlice (range d i hi) sp) = Ok (uint32_at d i).
Proof.
  intros -> Hi Hn. unfold LittleEndian_Uint32.
  assert (Hl : len (mkSlice (range d i (i + 4)) sp) = 4).
  { rewrite len_range by lia. lia. }
  rewrite !index_ok by (rewrite Hl; lia). cbn [bind elems].
  rewrite !byte_at_range by lia. unfold uint32_at.
  rewrite Z.add_0_r. reflexivity.
Qed.

Lemma Parse_cases_eq (data : slice) : Parse data = Parse_cases data.
Proof.
  unfold Parse, Parse_cases.
  destruct (len data <? 11) eqn:H11; [reflexivity |]. apply Z.ltb_ge in H11.
  rewrite (sub_within data 0 11) by lia. cbn [bind].
  rewrite ParseHeader_prefix by (unfold len in H11; lia).
  destruct (negb (byte_at (elems data) 0 =? StartByte)) eqn:Hs; [reflexivity |].
  cbn [wrap bind].
  rewrite (sub_within data 1 (len data - 2)) by lia. cbn [bind].
  rewrite (index_ok data (len data - 2)) by lia. cbn [bind].
  match goal with
  | |- context [CheckSum ?s] => change (CheckSum s) with (outer_checksum (elems data))
  end.
  destruct (negb (outer_checksum (elems data) =? byte_at (elems data) (len data - 2)))
    eqn:Hc; [reflexivity |].
  destruct (len data <? 13) eqn:H13.
  { apply Z.ltb_lt in H13. rewrite sub_inverted by lia. reflexivity. }
  apply Z.ltb_ge in H13.
  rewrite (sub_within data 11 (len data - 2)) by lia. cbn [bind].
  rewrite len_range by (unfold len in *; lia).
  replace (len data - 2 - 11) with (len data - 13) by lia.
  cbn [Length header_of].
  destruct (negb (uint16_at (elems data) 1 =? (len data - 13) mod 65536)) eqn:Hl;
    [reflexivity |].
  destruct (len data <? 27) eqn:H27.
  { apply Z.ltb_lt in H27. rewrite sub_inverted by lia. reflexivity. }
  apply Z.ltb_ge in H27.
  rewrite (sub_within data 25 (len data - 2)) by lia. cbn [bind].
  set (rtu := mkSlice (range (elems data) 25 (len data - 2))
                      (skipn (Z.to_nat (len data - 2)) (elems data ++ spare data))).
  assert (Hlr : len rtu = len data - 27).
  { unfold rtu. rewrite len_range by (unfold len in *; lia). lia. }
  destruct (len rtu <? 5) eqn:H5.
  { apply Z.ltb_lt in H5. rewrite Hlr in *.
    destruct (len data <? 32) eqn:H32; [reflexivity | apply Z.ltb_ge in H32; lia]. }
  apply Z.ltb_ge in H5.
  destruct (len data <? 32) eqn:H32; [apply Z.ltb_lt in H32; lia |].
  apply Z.ltb_ge in H32.
  rewrite (sub_within rtu (len rtu - 2) (len rtu)) by lia. cbn [bind].
  rewrite (sub_within rtu 0 (len rtu - 2)) by lia. cbn [bind].
  match goal with
  | |- context [bytes_Equal ?a ?b] =>
    change (bytes_Equal a b)
      with (if list_eq_dec Z.eq_dec (rtu_crc_provided (elems data))
                                    (rtu_crc_expected (elems data))
            then true else false)
  end.
  destruct (negb (if list_eq_dec Z.eq_dec (rtu_crc_provided (elems data))
                                          (rtu_crc_expected (elems data))
                  then true else false)) eqn:Hcrc; [reflexivity |].
  rewrite (index_ok data 11), (index_ok data 12) by lia. cbn [bind].
  rewrite (sub_within data 13 17) by lia. cbn [bind].
  rewrite (Uint32_range (elems data) _ 13 17) by (unfold len in *; lia). cbn [bind].
  rewrite (sub_within data 17 21) by lia. cbn [bind].
  rewrite (Uint32_range (elems data) _ 17 21) by (unfold len in *; lia). cbn [bind].
  rewrite (sub_within data 21 25) by lia. cbn [bind].
  rewrite (Uint32_range (elems data) _ 21 25) by (unfold len in *; lia). cbn [bind].
  unfold parseRTUFrame.
  rewrite (index_ok rtu 1) by lia. cbn [bind].
  rewrite (sub_within rtu 2 (len rtu - 2)) by lia. cbn [bind].
  rewrite (index_ok data (len data - 1)) by lia. cbn [bind].
  do 3 f_equal. f_equal.
  - unfold rtu. cbn [elems]. rewrite byte_at_range by lia. reflexivity.
  - rewrite Hlr. unfold rtu. cbn [elems spare]. f_equal.
    + rewrite range_range by lia. f_equal; lia.
    + rewrite range_then_rest by (unfold len in *; lia).
      rewrite skipn_skipn. f_equal. lia.
Qed.

(** ** Parsing a frame that Encode built *)

Lemma range_mid (a b c : list Z) (lo hi : Z) :
  lo = Z.of_nat (length a) -> hi = lo + Z.of_nat (length b) ->
  range (a ++ b ++ c) lo hi = b.
Proof.
  intros -> ->. unfold range.
  rewrite skipn_app, skipn_all2 by lia.
  replace (Z.to_nat (Z.of_nat (length a)) - length a)%nat with 0%nat by lia.
  cbn [app skipn]. rewrite firstn_app.
  replace (Z.to_nat (Z.of_nat (length a) + Z.of_nat (length b) - Z.of_nat (length a)))
    with (length b) by lia.
  rewrite firstn_all, Nat.sub_diag, firstn_O, app_nil_r. reflexivity.
Qed.

Lemma byte_at_mid (a c : list Z) (x i : Z) :
  i = Z.of_nat (length a) -> byte_at (a ++ x :: c) i = x.
Proof.
  intros ->. unfold byte_at. rewrite Nat2Z.id, app_nth2 by lia.
  rewrite Nat.sub_diag. reflexivity.
Qed.

Lemma uint16_recompose (l : Z) :
  is_u16 l -> Z.lor (l mod 256) (Z.shiftl (Z.shiftr l 8 mod 256) 8) = l.
Proof.
  intros Hl. change 256 with (2 ^ 8). apply Z.bits_inj'. intros n Hn.
  rewrite Z.lor_spec.
  destruct (Z_lt_le_dec n 8) as [Hlt | Hge].
  - rewrite Z.mod_pow2_bits_low, Z.shiftl_spec_low by lia. apply orb_false_r.
  - rewrite Z.mod_pow2_bits_high by lia. cbn [orb].
    rewrite Z.shiftl_spec by lia. rewrite Z.testbit_mod_pow2 by lia.
    rewrite Z.shiftr_spec by lia. replace (n - 8 + 8) with n by lia.
    destruct (n - 8 <? 8) eqn:Hb; [reflexivity |].
    apply Z.ltb_ge in Hb. rewrite testbit_above_u16 by (assumption || lia). reflexivity.
Qed.

Lemma encoded_payload_length (mb : solarmanPackager) (pdu : ProtocolDataUnit) :
  Z.of_nat (length (encoded_payload mb pdu)) = 19 + len (Data pdu).
Proof.
  unfold encoded_payload, CRC, CRCFromBytes, of_list, len. cbn [elems].
  rewrite !length_app. cbn [length]. lia.
Qed.

Lemma encoded_header_length (mb : solarmanPackager) (pdu : ProtocolDataUnit) :
  length (encoded_header mb pdu) = 11%nat.
Proof. reflexivity. Qed.

Section EncodedFrame.

Variable mb : solarmanPackager.
Variable pdu : ProtocolDataUnit.

Let hdr := encoded_header mb pdu.
Let pl := encoded_payload mb pdu.
Let cs := CheckSum (of_list (skipn 1 (hdr ++ pl))).
Let adu := hdr ++ pl ++ [cs; EndByte].
Let rtu := (SlaveID mb :: FunctionCode pdu :: elems (Data pdu)) ++ elems (CRC (SlaveID mb) pdu).

Lemma encoded_length : Z.of_nat (length adu) = 32 + len (Data pdu).
Proof.
  unfold adu. rewrite !length_app, Nat2Z.inj_add, Nat2Z.inj_add.
  unfold pl. rewrite encoded_payload_length. unfold hdr.
  rewrite encoded_header_length. cbn [length]. lia.
Qed.

Lemma encoded_byte_0 : byte_at adu 0 = StartByte.
Proof. reflexivity. Qed.

Lemma encoded_outer_checksum : outer_checksum adu = cs.
Proof.
  unfold outer_checksum. rewrite encoded_length.
  replace adu with ([StartByte] ++ skipn 1 (hdr ++ pl) ++ [cs; EndByte]).
  - rewrite range_mid; [reflexivity | reflexivity |].
    rewrite length_skipn, length_app. unfold pl, hdr.
    pose proof (encoded_payload_length mb pdu). rewrite encoded_header_length.
    cbn [length]. lia.
  - unfold adu. rewrite (app_assoc hdr pl). reflexivity.
Qed.

Lemma encoded_checksum_byte : byte_at adu (Z.of_nat (length adu) - 2) = cs.
Proof.
  rewrite encoded_length. unfold adu. rewrite app_assoc.
  apply byte_at_mid. rewrite length_app, Nat2Z.inj_add. unfold pl, hdr.
  rewrite encoded_payload_length, encoded_header_length. lia.
Qed.

Lemma encoded_declared_length :
  uint16_at adu 1 = (Z.of_nat (length adu) - 13) mod 65536.
Proof.
  rewrite encoded_length.
  change (uint16_at adu 1)
    with (let l := Z.of_nat (length (encoded_payload mb pdu)) mod 65536 in
          Z.lor (l mod 256) (Z.shiftl (Z.shiftr l 8 mod 256) 8)).
  cbv zeta. rewrite uint16_recompose.
  - rewrite encoded_payload_length. f_equal. lia.
  - unfold is_u16. apply Z.mod_pos_bound. lia.
Qed.

(** What [Parse] takes for the RTU segment starts one byte early: on the
    last byte of the offset-time field of the request layout. *)
Lemma encoded_rtu_of : rtu_of adu = 0 :: rtu.
Proof.
  unfold rtu_of. rewrite encoded_length.
  replace adu with ((hdr ++ [0x02; 0; 0; 0; 0; 0; 0; 0; 0; 0; 0; 0; 0; 0])
                    ++ (0 :: rtu) ++ [cs; EndByte]).
  - apply range_mid; [reflexivity |].
    unfold rtu. cbn [length]. rewrite length_app.
    unfold CRC, CRCFromBytes, of_list, len. cbn [elems length]. lia.
  - unfold adu, pl, encoded_payload, rtu.
    rewrite <- !app_assoc. cbn [app]. rewrite <- ?app_assoc. reflexivity.
Qed.

(** The RTU segment as the request layout has it, at offset 26. *)
Lemma encoded_rtu_at_26 : range adu 26 (Z.of_nat (length adu) - 2) = rtu.
Proof.
  rewrite encoded_length.
  replace adu with ((hdr ++ [0x02; 0; 0; 0; 0; 0; 0; 0; 0; 0; 0; 0; 0; 0; 0])
                    ++ rtu ++ [cs; EndByte]).
  - apply range_mid; [reflexivity |].
    unfold rtu. cbn [length]. rewrite length_app.
    unfold CRC, CRCFromBytes, of_list, len. cbn [elems length]. lia.
  - unfold adu, pl, encoded_payload, rtu.
    rewrite <- !app_assoc. cbn [app]. rewrite <- ?app_assoc. reflexivity.
Qed.

Lemma range_suffix (a b : list Z) (lo hi : Z) :
  lo = Z.of_nat (length a) -> hi = lo + Z.of_nat (length b) -> range (a ++ b) lo hi = b.
Proof.
  intros H1 H2. rewrite <- (app_nil_r b) at 1. apply range_mid; assumption.
Qed.

Lemma range_prefix (a b : list Z) (hi : Z) :
  hi = Z.of_nat (length a) -> range (a ++ b) 0 hi = a.
Proof.
  intros H. change (a ++ b) with ([] ++ a ++ b). apply range_mid; [reflexivity | lia].
Qed.

Lemma encoded_rtu_of_length : Z.of_nat (length (rtu_of adu)) = 5 + len (Data pdu).
Proof.
  rewrite encoded_rtu_of. unfold rtu. cbn [length]. rewrite length_app.
  unfold CRC, CRCFromBytes, of_list, len. cbn [elems length]. lia.
Qed.

Lemma encoded_crc_provided : rtu_crc_provided adu = elems (CRC (SlaveID mb) pdu).
Proof.
  unfold rtu_crc_provided. rewrite encoded_rtu_of_length, encoded_rtu_of.
  change (0 :: rtu)
    with ((0 :: SlaveID mb :: FunctionCode pdu :: elems (Data pdu))
          ++ elems (CRC (SlaveID mb) pdu)).
  apply range_suffix.
  - unfold len. cbn [length]. lia.
  - unfold CRC, CRCFromBytes, of_list. cbn [elems length]. lia.
Qed.

Lemma encoded_crc_expected :
  rtu_crc_expected adu =
  elems (CRCFromBytes (of_list (0 :: SlaveID mb :: FunctionCode pdu :: elems (Data pdu)))).
Proof.
  unfold rtu_crc_expected. rewrite encoded_rtu_of_length, encoded_rtu_of.
  change (0 :: rtu)
    with ((0 :: SlaveID mb :: FunctionCode pdu :: elems (Data pdu))
          ++ elems (CRC (SlaveID mb) pdu)).
  rewrite range_prefix; [reflexivity |].
  unfold len. cbn [length]. lia.
Qed.

Lemma encoded_crc_differs :
  is_byte (SlaveID mb) -> is_byte (FunctionCode pdu) -> Forall is_byte (elems (Data pdu)) ->
  elems (CRC (SlaveID mb) pdu) <>
  elems (CRCFromBytes (of_list (0 :: SlaveID mb :: FunctionCode pdu :: elems (Data pdu)))).
Proof.
  intros Hs Hf Hd H. unfold CRC in H.
  assert (Hb : Forall is_byte (SlaveID mb :: FunctionCode pdu :: elems (Data pdu)))
    by (constructor; [assumption | constructor; assumption]).
  symmetry in H. apply CRCFromBytes_inj in H.
  - revert H. apply crc_register_leading_zero. exact Hb.
  - constructor; [unfold is_byte; lia | exact Hb].
  - exact Hb.
Qed.

End EncodedFrame.

Lemma Parse_of_Encode (mb : solarmanPackager) (pdu : ProtocolDataUnit) (sp : list Z) :
  is_byte (SlaveID mb) -> is_byte (FunctionCode pdu) -> Forall is_byte (elems (Data pdu)) ->
  Parse (mkSlice (snd (Encode mb pdu)) sp) =
  Err (CRCMismatch
         (elems (CRCFromBytes
                   (of_list (0 :: SlaveID mb :: FunctionCode pdu :: elems (Data pdu)))))
         (elems (CRC (SlaveID mb) pdu))).
Proof.
  intros Hs Hf Hd.
  rewrite Parse_cases_eq. unfold Parse_cases, len. cbn [elems].
  rewrite Encode_eq. cbn [snd].
  rewrite encoded_byte_0, encoded_outer_checksum, encoded_checksum_byte,
    encoded_declared_length, encoded_crc_provided, encoded_crc_expected.
  rewrite !Z.eqb_refl. cbn [negb]. rewrite encoded_length.
  pose proof (len_nonneg (Data pdu)) as Hm.
  rewrite !(proj2 (Z.ltb_ge _ _)) by lia.
  destruct (list_eq_dec Z.eq_dec _ _) as [Heq | Hne]; [| reflexivity].
  exfalso. revert Heq. apply encoded_crc_differs; assumption.
Qed.

Lemma RTU_of_Encode (mb : solarmanPackager) (pdu : ProtocolDataUnit) (sp : list Z) :
  let adu := mkSlice (snd (Encode mb pdu)) sp in
  exists rtu frame,
    @sub parse_error adu 26 (len adu - 2) = Ok rtu /\
    elems rtu = SlaveID mb :: FunctionCode pdu :: elems (Data pdu)
                ++ elems (CRC (SlaveID mb) pdu) /\
    @parseRTUFrame parse_error rtu = Ok frame /\
    FunctionCode frame = FunctionCode pdu /\
    elems (Data frame) = elems (Data pdu).
Proof.
  cbv zeta. rewrite Encode_eq. cbn [snd].
  pose proof (encoded_length mb pdu) as Hn.
  pose proof (len_nonneg (Data pdu)) as Hm.
  set (l := encoded_header mb pdu ++ encoded_payload mb pdu ++ _) in *.
  assert (Hlen : len (mkSlice l sp) = 32 + len (Data pdu)) by exact Hn.
  rewrite sub_within by lia. cbn [elems spare].
  set (rest := skipn _ (l ++ sp)).
  assert (Hr : range l 26 (len (mkSlice l sp) - 2)
               = [SlaveID mb; FunctionCode pdu] ++ elems (Data pdu)
                 ++ elems (CRC (SlaveID mb) pdu))
    by (apply encoded_rtu_at_26).
  rewrite Hr.
  assert (Hc : length (elems (CRC (SlaveID mb) pdu)) = 2%nat) by reflexivity.
  eexists. eexists. split; [reflexivity |]. split; [reflexivity |].
  unfold parseRTUFrame.
  assert (Hl : len (mkSlice ([SlaveID mb; FunctionCode pdu] ++ elems (Data pdu)
                              ++ elems (CRC (SlaveID mb) pdu)) rest)
               = 4 + len (Data pdu)).
  { unfold len. cbn [elems app length]. rewrite length_app, Hc. lia. }
  rewrite index_ok by lia. cbn [bind].
  rewrite sub_within by lia. cbn [bind elems].
  split; [reflexivity |]. split; [reflexivity |]. cbn [Data elems].
  apply range_mid; [reflexivity |]. rewrite Hl. unfold len. lia.
Qed.

(** C1, as the code has it: for every request PDU of bytes, parsing the frame
    that [Encode] produced passes the length, start-marker, outer-checksum,
    declared-length and RTU-length checks and is then rejected with a CRC
    mismatch, because [Parse] reads the RTU segment of the response layout
    (offset 25) while [Encode] writes the request layout, whose RTU segment
    starts at offset 26; the function code and the data passed to [Encode]
    are what [parseRTUFrame] returns on the bytes from offset 26 to the
    checksum, which are slave id, function code, data and their CRC-16. *)
Theorem Decode_of_Encode_rejected
        (mb : solarmanPackager) (pdu : ProtocolDataUnit) (sp : list Z) :
  is_byte (SlaveID mb) -> is_byte (FunctionCode pdu) -> Forall is_byte (elems (Data pdu)) ->
  let adu := mkSlice (snd (Encode mb pdu)) sp in
  Decode adu =
  Err (CRCMismatch
         (elems (CRCFromBytes
                   (of_list (0 :: SlaveID mb :: FunctionCode pdu :: elems (Data pdu)))))
         (elems (CRC (SlaveID mb) pdu))) /\
  exists rtu frame,
    @sub parse_error adu 26 (len adu - 2) = Ok rtu /\
    elems rtu = SlaveID mb :: FunctionCode pdu :: elems (Data pdu)
                ++ elems (CRC (SlaveID mb) pdu) /\
    @parseRTUFrame parse_error rtu = Ok frame /\
    FunctionCode frame = FunctionCode pdu /\
    elems (Data frame) = elems (Data pdu).
Proof.
  intros Hs Hf Hd adu. split.
  - unfold Decode, adu. rewrite Parse_of_Encode by assumption. reflexivity.
  - apply RTU_of_Encode.
Qed.

Lemma Decode_of_Encode_rejected_witness :
  Decode (mkSlice (snd (Encode (mkPackager 0x01 0x12345678 0)
                               (mkPDU 0x03 (of_list [0x00; 0x01; 0x00; 0x02])))) []) =
  Err (CRCMismatch [0x8E; 0xD0] [0x95; 0xCB]).
Proof.
  refine (proj1 (Decode_of_Encode_rejected
                   (mkPackager 0x01 0x12345678 0)
                   (mkPDU 0x03 (of_list [0x00; 0x01; 0x00; 0x02])) [] _ _ _)).
  - unfold is_byte. simpl. lia.
  - unfold is_byte. simpl. lia.
  - simpl. repeat (constructor; [unfold is_byte; lia |]). constructor.
Defined.

(** C1 as stated fails on the request of the package's own Encode test:
    decoding the encoded frame does not succeed. *)
Lemma Decode_of_Encode_counterexample :
  let mb := mkPackager 0x01 0x12345678 0 in
  let pdu := mkPDU 0x03 (of_list [0x00; 0x01; 0x00; 0x02]) in
  ~ exists out,
      Decode (of_list (snd (Encode mb pdu))) = Ok out /\
      FunctionCode out = FunctionCode pdu /\
      elems (Data out) = elems (Data pdu).
Proof.
  intros mb pdu [out [H _]]. vm_compute in H. discriminate.
Qed.

(** ** What Parse does with each kind of frame *)

Section ParseChecks.

Variable data : slice.

Let d := elems data.
Let n := len data.

Lemma Parse_rejects_short :
  n < 11 -> Parse data = Err (DataTooShort n).
Proof.
  intros H. rewrite Parse_cases_eq. unfold Parse_cases. fold n.
  rewrite (proj2 (Z.ltb_lt _ _)) by lia. reflexivity.
Qed.

Lemma Parse_rejects_start :
  11 <= n -> byte_at d 0 <> StartByte ->
  Parse data = Err (FailedHeader (HdrBadStart StartByte (byte_at d 0))).
Proof.
  intros H Hs. rewrite Parse_cases_eq. unfold Parse_cases. fold n d.
  rewrite (proj2 (Z.ltb_ge _ _)) by lia.
  rewrite (proj2 (Z.eqb_neq _ _)) by assumption. reflexivity.
Qed.

Lemma Parse_rejects_checksum :
  11 <= n -> byte_at d 0 = StartByte -> outer_checksum d <> byte_at d (n - 2) ->
  Parse data = Err (ChecksumMismatch (outer_checksum d) (byte_at d (n - 2))).
Proof.
  intros H Hs Hc. rewrite Parse_cases_eq. unfold Parse_cases. fold n d.
  rewrite (proj2 (Z.ltb_ge _ _)) by lia.
  rewrite Hs, Z.eqb_refl. cbn [negb].
  rewrite (proj2 (Z.eqb_neq _ _)) by assumption. reflexivity.
Qed.

Lemma Parse_panics_at_span :
  11 <= n < 13 -> byte_at d 0 = StartByte -> outer_checksum d = byte_at d (n - 2) ->
  Parse data = Panic (SliceBounds 11 (n - 2) (cap data)).
Proof.
  intros H Hs Hc. rewrite Parse_cases_eq. unfold Parse_cases. fold n d.
  rewrite (proj2 (Z.ltb_ge n 11)) by lia.
  rewrite Hs, Hc, !Z.eqb_refl. cbn [negb].
  rewrite (proj2 (Z.ltb_lt n 13)) by lia. reflexivity.
Qed.

Lemma Parse_rejects_length :
  13 <= n -> byte_at d 0 = StartByte -> outer_checksum d = byte_at d (n - 2) ->
  uint16_at d 1 <> (n - 13) mod 65536 ->
  Parse data = Err (InvalidLength (uint16_at d 1) ((n - 13) mod 65536)).
Proof.
  intros H Hs Hc Hl. rewrite Parse_cases_eq. unfold Parse_cases. fold n d.
  rewrite (proj2 (Z.ltb_ge n 11)) by lia.
  rewrite Hs, Hc, !Z.eqb_refl. cbn [negb].
  rewrite (proj2 (Z.ltb_ge n 13)) by lia.
  rewrite (proj2 (Z.eqb_neq _ _)) by assumption. reflexivity.
Qed.

Lemma Parse_panics_at_rtu :
  13 <= n < 27 -> byte_at d 0 = StartByte -> outer_checksum d = byte_at d (n - 2) ->
  uint16_at d 1 = (n - 13) mod 65536 ->
  Parse data = Panic (SliceBounds 25 (n - 2) (cap data)).
Proof.
  intros H Hs Hc Hl. rewrite Parse_cases_eq. unfold Parse_cases. fold n d.
  rewrite (proj2 (Z.ltb_ge n 11)) by lia.
  rewrite Hs, Hc, Hl, !Z.eqb_refl. cbn [negb].
  rewrite (proj2 (Z.ltb_ge n 13)) by lia.
  rewrite (proj2 (Z.ltb_lt n 27)) by lia. reflexivity.
Qed.

Lemma Parse_rejects_short_rtu :
  27 <= n < 32 -> byte_at d 0 = StartByte -> outer_checksum d = byte_at d (n - 2) ->
  uint16_at d 1 = (n - 13) mod 65536 ->
  Parse data = Err (InvalidRTU (n - 27)).
Proof.
  intros H Hs Hc Hl. rewrite Parse_cases_eq. unfold Parse_cases. fold n d.
  rewrite (proj2 (Z.ltb_ge n 11)) by lia.
  rewrite Hs, Hc, Hl, !Z.eqb_refl. cbn [negb].
  rewrite (proj2 (Z.ltb_ge n 13)), (proj2 (Z.ltb_ge n 27)) by lia.
  rewrite (proj2 (Z.ltb_lt n 32)) by lia. reflexivity.
Qed.

Lemma Parse_rejects_crc :
  32 <= n -> byte_at d 0 = StartByte -> outer_checksum d = byte_at d (n - 2) ->
  uint16_at d 1 = (n - 13) mod 65536 ->
  rtu_crc_provided d <> rtu_crc_expected d ->
  Parse data = Err (CRCMismatch (rtu_crc_expected d) (rtu_crc_provided d)).
Proof.
  intros H Hs Hc Hl Hcrc. rewrite Parse_cases_eq. unfold Parse_cases. fold n d.
  rewrite (proj2 (Z.ltb_ge n 11)) by lia.
  rewrite Hs, Hc, Hl, !Z.eqb_refl. cbn [negb].
  rewrite (proj2 (Z.ltb_ge n 13)), (proj2 (Z.ltb_ge n 27)), (proj2 (Z.ltb_ge n 32)) by lia.
  destruct (list_eq_dec Z.eq_dec _ _) as [Heq | Hne]; [contradiction | reflexivity].
Qed.

Lemma Parse_accepts :
  32 <= n -> byte_at d 0 = StartByte -> outer_checksum d = byte_at d (n - 2) ->
  uint16_at d 1 = (n - 13) mod 65536 ->
  rtu_crc_provided d = rtu_crc_expected d ->
  exists response,
    Parse data = Ok response /\
    resp_Header response = header_of d /\
    FunctionCode (ModbusRTUFrame (Payload response)) = byte_at d 26 /\
    elems (Data (ModbusRTUFrame (Payload response))) = range d 27 (n - 4).
Proof.
  intros H Hs Hc Hl Hcrc. rewrite Parse_cases_eq. unfold Parse_cases. fold n d.
  rewrite (proj2 (Z.ltb_ge n 11)) by lia.
  rewrite Hs, Hc, Hl, !Z.eqb_refl. cbn [negb].
  rewrite (proj2 (Z.ltb_ge n 13)), (proj2 (Z.ltb_ge n 27)), (proj2 (Z.ltb_ge n 32)) by lia.
  destruct (list_eq_dec Z.eq_dec _ _) as [Heq | Hne]; [| contradiction].
  cbn [negb]. eexists. split; [reflexivity |]. repeat split.
Qed.

End ParseChecks.

(** C4: [Parse] is not total.  Every frame of 11 or 12 bytes with the right
    start marker and outer checksum makes the slice expression
    [data[11:len(data)-2]] panic, and every frame of 13 to 26 bytes that also
    declares the payload length it has makes [data[25:len(data)-2]] panic;
    no error is returned. *)
Theorem Parse_panics_below_27 :
  (forall data : slice,
     11 <= len data < 13 ->
     byte_at (elems data) 0 = StartByte ->
     outer_checksum (elems data) = byte_at (elems data) (len data - 2) ->
     Parse data = Panic (SliceBounds 11 (len data - 2) (cap data))) /\
  (forall data : slice,
     13 <= len data < 27 ->
     byte_at (elems data) 0 = StartByte ->
     outer_checksum (elems data) = byte_at (elems data) (len data - 2) ->
     uint16_at (elems data) 1 = (len data - 13) mod 65536 ->
     Parse data = Panic (SliceBounds 25 (len data - 2) (cap data))).
Proof.
  split; intros data H Hs Hc.
  - apply Parse_panics_at_span; assumption.
  - intros Hl. apply Parse_panics_at_rtu; assumption.
Qed.

Lemma Parse_panics_below_27_witness :
  Parse (of_list frame_of_11) = Panic (SliceBounds 11 9 11) /\
  Parse (mkSlice frame_of_13 (repeat 0 1011)) = Panic (SliceBounds 25 11 1024).
Proof.
  split.
  - refine (proj1 Parse_panics_below_27 (of_list frame_of_11) _ _ _).
    + unfold len, of_list, frame_of_11. cbn [elems length]. lia.
    + reflexivity.
    + reflexivity.
  - refine (proj2 Parse_panics_below_27 (mkSlice frame_of_13 (repeat 0 1011)) _ _ _ _).
    + unfold len, frame_of_13. cbn [elems length]. lia.
    + reflexivity.
    + reflexivity.
    + reflexivity.
Defined.

(** C5 at a frame of 13 bytes: it is long enough, starts with the marker,
    carries the right outer checksum and declares the empty payload it has,
    so checks (1) to (4) pass; its RTU segment is shorter than 5 bytes, yet
    [Parse] does not reject it with an error: it panics. *)
Theorem Parse_short_rtu_panics :
  let data := of_list frame_of_13 in
  11 <= len data /\
  byte_at (elems data) 0 = StartByte /\
  outer_checksum (elems data) = byte_at (elems data) (len data - 2) /\
  uint16_at (elems data) 1 = len data - 13 /\
  len data - 2 - 25 < 5 /\
  Parse data = Panic (SliceBounds 25 11 13).
Proof.
  cbv zeta. split; [unfold len, of_list, frame_of_13; cbn [elems length]; lia |].
  split; [reflexivity |]. split; [reflexivity |]. split; [reflexivity |].
  split; [reflexivity | vm_compute; reflexivity].
Qed.

(** ** Verify, case by case *)

Lemma range_single (l : list Z) (i hi : Z) :
  hi = i + 1 -> 0 <= i < Z.of_nat (length l) -> range l i hi = [byte_at l i].
Proof.
  intros -> H. unfold range, byte_at.
  replace (Z.to_nat (i + 1 - i)) with 1%nat by lia.
  assert (Hs : (Z.to_nat i < length l)%nat) by lia.
  revert Hs. generalize (Z.to_nat i) as k. clear H.
  induction l as [| x l IH]; intros k Hk; cbn [length] in Hk; [lia |].
  destruct k as [| k]; [reflexivity |]. cbn [skipn nth]. apply IH. lia.
Qed.

Lemma Uint16_range {E : Type} (d sp : list Z) (i hi : Z) :
  hi = i + 2 -> 0 <= i -> hi <= Z.of_nat (length d) ->
  @LittleEndian_Uint16 E (mkSlice (range d i hi) sp) = Ok (uint16_at d i).
Proof.
  intros -> Hi Hn. unfold LittleEndian_Uint16.
  assert (Hl : len (mkSlice (range d i (i + 2)) sp) = 2).
  { rewrite len_range by lia. lia. }
  rewrite !index_ok by (rewrite Hl; lia). cbn [bind elems].
  rewrite !byte_at_range by lia. unfold uint16_at.
  rewrite Z.add_0_r. reflexivity.
Qed.

Lemma cap_backing (s : slice) : cap s = Z.of_nat (length (backing s)).
Proof. unfold cap, backing. rewrite length_app. reflexivity. Qed.

Lemma Verify_cases_eq (aduRequest aduResponse : slice) :
  Verify aduRequest aduResponse = Verify_cases aduRequest aduResponse.
Proof.
  unfold Verify, Verify_cases.
  destruct (len aduResponse <? 11) eqn:H11; [reflexivity |]. apply Z.ltb_ge in H11.
  rewrite (index_ok aduResponse 0) by lia. cbn [bind].
  destruct (negb (byte_at (elems aduResponse) 0 =? StartByte)); [reflexivity |].
  rewrite (sub_within aduResponse 1 (len aduResponse - 2)) by lia. cbn [bind].
  rewrite (index_ok aduResponse (len aduResponse - 2)) by lia. cbn [bind].
  match goal with
  | |- context [CheckSum ?s] =>
    change (CheckSum s) with (outer_checksum (elems aduResponse))
  end.
  destruct (negb (outer_checksum (elems aduResponse)
                  =? byte_at (elems aduResponse) (len aduResponse - 2)));
    [reflexivity |].
  pose proof (cap_backing aduRequest) as Hcap.
  destruct (cap aduRequest <? 6) eqn:H6.
  { apply Z.ltb_lt in H6. rewrite sub_past_cap by lia. reflexivity. }
  apply Z.ltb_ge in H6.
  rewrite (sub_ok aduRequest 5 6) by lia. cbn [bind].
  rewrite (sub_within aduResponse 5 6) by lia. cbn [bind].
  fold (backing aduRequest).
  rewrite (range_single (backing aduRequest) 5 6) by lia.
  rewrite (range_single (elems aduResponse) 5 6) by (unfold len in H11; lia).
  unfold bytes_Equal at 1. cbn [elems].
  destruct (list_eq_dec Z.eq_dec [byte_at (backing aduRequest) 5]
                                 [byte_at (elems aduResponse) 5]) as [Hseq | Hseq].
  2: { assert (Hne : byte_at (backing aduRequest) 5 <> byte_at (elems aduResponse) 5)
         by (intros Heq; apply Hseq; rewrite Heq; reflexivity).
       rewrite (proj2 (Z.eqb_neq _ _)) by assumption. cbn [negb].
       unfold BigEndian_Uint16. rewrite index_out by (unfold len; cbn [elems length]; lia).
       reflexivity. }
  injection Hseq as Hseq. rewrite Hseq, Z.eqb_refl. cbn [negb].
  rewrite (sub_ok aduRequest 3 5) by lia. cbn [bind]. fold (backing aduRequest).
  rewrite (Uint16_range (backing aduRequest) _ 3 5) by lia. cbn [bind].
  rewrite (sub_within aduResponse 3 5) by lia. cbn [bind].
  rewrite (Uint16_range (elems aduResponse) _ 3 5) by (unfold len in H11; lia).
  cbn [bind].
  destruct (negb (uint16_at (elems aduResponse) 3
                  =? (uint16_at (backing aduRequest) 3 - 12288) mod 65536));
    [reflexivity |].
  destruct (cap aduRequest <? 11) eqn:Hc11.
  { apply Z.ltb_lt in Hc11. rewrite sub_past_cap by lia. reflexivity. }
  apply Z.ltb_ge in Hc11.
  rewrite (sub_ok aduRequest 7 11) by lia. cbn [bind]. fold (backing aduRequest).
  rewrite (sub_within aduResponse 7 11) by lia. cbn [bind].
  unfold bytes_Equal. cbn [elems].
  destruct (list_eq_dec Z.eq_dec (range (backing aduRequest) 7 11)
                                 (range (elems aduResponse) 7 11)); reflexivity.
Qed.

Lemma byte_at_backing (s : slice) (i : Z) :
  0 <= i < len s -> byte_at (backing s) i = byte_at (elems s) i.
Proof.
  intros H. unfold byte_at, backing. unfold len in H. apply app_nth1. lia.
Qed.

Lemma uint16_at_backing (s : slice) (i : Z) :
  0 <= i -> i + 1 < len s -> uint16_at (backing s) i = uint16_at (elems s) i.
Proof.
  intros H0 H. unfold uint16_at. rewrite !byte_at_backing by lia. reflexivity.
Qed.

Lemma range_backing (s : slice) (lo hi : Z) :
  0 <= lo <= hi -> hi <= len s -> range (backing s) lo hi = range (elems s) lo hi.
Proof.
  intros H1 H2. unfold range, backing. unfold len in H2.
  rewrite skipn_app, firstn_app, length_skipn.
  replace (Z.to_nat (hi - lo) - (length (elems s) - Z.to_nat lo))%nat with 0%nat by lia.
  rewrite firstn_O, app_nil_r. reflexivity.
Qed.

Section VerifyChecks.

Variables aduRequest aduResponse : slice.

Let q := elems aduRequest.
Let r := elems aduResponse.
Let n := len aduResponse.

(** The response passes the three checks [Verify] makes on it alone. *)
Hypothesis response_length : 11 <= n.
Hypothesis response_start : byte_at r 0 = StartByte.
Hypothesis response_checksum : outer_checksum r = byte_at r (n - 2).

Lemma Verify_after_response_checks :
  Verify aduRequest aduResponse =
  if cap aduRequest <? 6 then Panic (SliceBounds 5 6 (cap aduRequest)) else
  if negb (byte_at (backing aduRequest) 5 =? byte_at r 5) then Panic (IndexRange 1 1) else
  if negb (uint16_at r 3 =? (uint16_at (backing aduRequest) 3 - 0x3000) mod 65536)
  then Err (ControlCodeMismatch ((uint16_at (backing aduRequest) 3 - 0x3000) mod 65536)
                                (uint16_at r 3)) else
  if cap aduRequest <? 11 then Panic (SliceBounds 7 11 (cap aduRequest)) else
  if negb (if list_eq_dec Z.eq_dec (range (backing aduRequest) 7 11) (range r 7 11)
           then true else false)
  then Err (SerialMismatch (range (backing aduRequest) 7 11) (range r 7 11)) else
  Ok tt.
Proof.
  rewrite Verify_cases_eq. unfold Verify_cases. fold r n.
  rewrite (proj2 (Z.ltb_ge n 11)) by assumption.
  rewrite response_start, response_checksum, !Z.eqb_refl. reflexivity.
Qed.

(** A request whose capacity is below 6 bytes: [aduRequest[5:6]] panics. *)
Lemma Verify_panics_at_sequence :
  cap aduRequest < 6 ->
  Verify aduRequest aduResponse = Panic (SliceBounds 5 6 (cap aduRequest)).
Proof.
  intros H. rewrite Verify_after_response_checks.
  rewrite (proj2 (Z.ltb_lt _ _)) by assumption. reflexivity.
Qed.

(** A request whose capacity is 6 to 10 bytes and whose sequence number and
    control code match: [aduRequest[7:11]] panics. *)
Lemma Verify_panics_at_serial :
  6 <= cap aduRequest < 11 ->
  byte_at (backing aduRequest) 5 = byte_at r 5 ->
  uint16_at r 3 = (uint16_at (backing aduRequest) 3 - 0x3000) mod 65536 ->
  Verify aduRequest aduResponse = Panic (SliceBounds 7 11 (cap aduRequest)).
Proof.
  intros H Hs Hc. rewrite Verify_after_response_checks.
  rewrite (proj2 (Z.ltb_ge _ 6)) by lia.
  rewrite Hs, Hc, !Z.eqb_refl. cbn [negb].
  rewrite (proj2 (Z.ltb_lt _ 11)) by lia. reflexivity.
Qed.

(** The request is at least as long as a header from here on. *)
Hypothesis request_length : 11 <= len aduRequest.

Lemma Verify_after_length_checks :
  Verify aduRequest aduResponse =
  if negb (byte_at q 5 =? byte_at r 5) then Panic (IndexRange 1 1) else
  if negb (uint16_at r 3 =? (uint16_at q 3 - 0x3000) mod 65536)
  then Err (ControlCodeMismatch ((uint16_at q 3 - 0x3000) mod 65536) (uint16_at r 3)) else
  if negb (if list_eq_dec Z.eq_dec (range q 7 11) (range r 7 11) then true else false)
  then Err (SerialMismatch (range q 7 11) (range r 7 11)) else
  Ok tt.
Proof.
  rewrite Verify_after_response_checks.
  pose proof (len_le_cap aduRequest) as Hcap.
  rewrite (proj2 (Z.ltb_ge _ 6)), (proj2 (Z.ltb_ge _ 11)) by lia.
  rewrite byte_at_backing, uint16_at_backing, range_backing by lia.
  reflexivity.
Qed.

(** Different sequence numbers: building the error panics, because
    [binary.BigEndian.Uint16] is given the one-byte slice [aduRequest[5:6]]. *)
Lemma Verify_sequence_mismatch :
  byte_at q 5 <> byte_at r 5 ->
  Verify aduRequest aduResponse = Panic (IndexRange 1 1).
Proof.
  intros H. rewrite Verify_after_length_checks.
  rewrite (proj2 (Z.eqb_neq _ _)) by assumption. reflexivity.
Qed.

Lemma Verify_control_code_mismatch :
  byte_at q 5 = byte_at r 5 ->
  uint16_at r 3 <> (uint16_at q 3 - 0x3000) mod 65536 ->
  Verify aduRequest aduResponse =
  Err (ControlCodeMismatch ((uint16_at q 3 - 0x3000) mod 65536) (uint16_at r 3)).
Proof.
  intros Hs Hc. rewrite Verify_after_length_checks.
  rewrite Hs, Z.eqb_refl. cbn [negb].
  rewrite (proj2 (Z.eqb_neq _ _)) by assumption. reflexivity.
Qed.

Lemma Verify_serial_mismatch :
  byte_at q 5 = byte_at r 5 ->
  uint16_at r 3 = (uint16_at q 3 - 0x3000) mod 65536 ->
  range q 7 11 <> range r 7 11 ->
  Verify aduRequest aduResponse = Err (SerialMismatch (range q 7 11) (range r 7 11)).
Proof.
  intros Hs Hc Hl. rewrite Verify_after_length_checks.
  rewrite Hs, Hc, !Z.eqb_refl. cbn [negb].
  destruct (list_eq_dec Z.eq_dec _ _); [contradiction | reflexivity].
Qed.

(** Success is exactly the three matches. *)
Lemma Verify_succeeds_iff :
  Verify aduRequest aduResponse = Ok tt <->
  byte_at q 5 = byte_at r 5 /\
  uint16_at r 3 = (uint16_at q 3 - 0x3000) mod 65536 /\
  range q 7 11 = range r 7 11.
Proof.
  rewrite Verify_after_length_checks.
  destruct (byte_at q 5 =? byte_at r 5) eqn:Hs; cbn [negb].
  2: { apply Z.eqb_neq in Hs. split; [discriminate | intros [H _]; contradiction]. }
  apply Z.eqb_eq in Hs.
  destruct (uint16_at r 3 =? (uint16_at q 3 - 0x3000) mod 65536) eqn:Hc; cbn [negb].
  2: { apply Z.eqb_neq in Hc. split; [discriminate | intros [_ [H _]]; contradiction]. }
  apply Z.eqb_eq in Hc.
  destruct (list_eq_dec Z.eq_dec (range q 7 11) (range r 7 11)) as [Hl | Hl]; cbn [negb].
  - split; [intros _; repeat split; assumption | reflexivity].
  - split; [discriminate | intros [_ [_ H]]; contradiction].
Qed.

End VerifyChecks.

(** C10: [Verify] checks the length of the response only.  With a response
    that passes the length, start-byte and checksum checks, a request whose
    capacity is below 6 bytes makes [aduRequest[5:6]] panic, and a request
    whose capacity is 6 to 10 bytes with matching sequence number and control
    code makes [aduRequest[7:11]] panic; no error is returned. *)
Theorem Verify_panics_on_short_request :
  (forall aduRequest aduResponse : slice,
     11 <= len aduResponse ->
     byte_at (elems aduResponse) 0 = StartByte ->
     outer_checksum (elems aduResponse)
       = byte_at (elems aduResponse) (len aduResponse - 2) ->
     cap aduRequest < 6 ->
     len aduRequest < 11 /\
     Verify aduRequest aduResponse = Panic (SliceBounds 5 6 (cap aduRequest))) /\
  (forall aduRequest aduResponse : slice,
     11 <= len aduResponse ->
     byte_at (elems aduResponse) 0 = StartByte ->
     outer_checksum (elems aduResponse)
       = byte_at (elems aduResponse) (len aduResponse - 2) ->
     6 <= cap aduRequest < 11 ->
     byte_at (backing aduRequest) 5 = byte_at (elems aduResponse) 5 ->
     uint16_at (elems aduResponse) 3
       = (uint16_at (backing aduRequest) 3 - 0x3000) mod 65536 ->
     len aduRequest < 11 /\
     Verify aduRequest aduResponse = Panic (SliceBounds 7 11 (cap aduRequest))).
Proof.
  split.
  - intros req resp H1 H2 H3 H4. pose proof (len_le_cap req). split; [lia |].
    apply Verify_panics_at_sequence; assumption.
  - intros req resp H1 H2 H3 H4 H5 H6. pose proof (len_le_cap req). split; [lia |].
    apply Verify_panics_at_serial; assumption.
Qed.

Lemma Verify_panics_on_short_request_witness :
  Verify (of_list (firstn 3 verify_request)) (of_list verify_response)
  = Panic (SliceBounds 5 6 3) /\
  Verify (of_list (firstn 7 verify_request)) (of_list verify_response)
  = Panic (SliceBounds 7 11 7).
Proof.
  split.
  - refine (proj2 (proj1 Verify_panics_on_short_request
                     (of_list (firstn 3 verify_request)) (of_list verify_response)
                     _ _ _ _)).
    + unfold len, of_list, verify_response. cbn [elems length]. lia.
    + reflexivity.
    + reflexivity.
    + unfold cap, of_list, verify_request. cbn [elems spare firstn length]. lia.
  - refine (proj2 (proj2 Verify_panics_on_short_request
                     (of_list (firstn 7 verify_request)) (of_list verify_response)
                     _ _ _ _ _ _)).
    + unfold len, of_list, verify_response. cbn [elems length]. lia.
    + reflexivity.
    + reflexivity.
    + unfold cap, of_list, verify_request. cbn [elems spare firstn length]. lia.
    + reflexivity.
    + reflexivity.
Defined.

(** C6 at the request of the package's Verify test and a response that
    passes the length, start-byte and checksum checks but carries another
    sequence number: [Verify] does not return a sequence-mismatch error, it
    panics while building it. *)
Theorem Verify_sequence_mismatch_panics :
  let aduRequest := of_list verify_request in
  let aduResponse := of_list verify_response_other_sequence in
  11 <= len aduRequest /\
  11 <= len aduResponse /\
  byte_at (elems aduResponse) 0 = StartByte /\
  outer_checksum (elems aduResponse) = byte_at (elems aduResponse) (len aduResponse - 2) /\
  byte_at (elems aduRequest) 5 <> byte_at (elems aduResponse) 5 /\
  Verify aduRequest aduResponse = Panic (IndexRange 1 1).
Proof.
  cbv zeta.
  split; [unfold len, of_list, verify_request; cbn [elems length]; lia |].
  split; [unfold len, of_list, verify_response_other_sequence; cbn [elems length]; lia |].
  split; [reflexivity |]. split; [reflexivity |].
  split; [vm_compute; discriminate | vm_compute; reflexivity].
Qed.

(** ** The transporter, call by call *)

Import Transport.

Lemma mbind_ret {A B : Type} (m : M A) (k : A -> M B) (st st' : state) (a : A) :
  m st = (Ret a, st') -> mbind m k st = k a st'.
Proof. intros H. unfold mbind. rewrite H. reflexivity. Qed.

Lemma advance_advance (st : state) (c1 c2 : option nat)
      (d1 w1 r1 k1 d2 w2 r2 k2 : nat) (e1 e2 : list event) :
  advance (advance st c1 d1 w1 r1 k1 e1) c2 d2 w2 r2 k2 e2
  = advance st c2 (d2 + d1) (w2 + w1) (r2 + r1) (k2 + k1) (e1 ++ e2).
Proof.
  unfold advance. cbn [Address Logger dials writes reads closes trace].
  rewrite !Nat.add_assoc, app_assoc. reflexivity.
Qed.

Ltac connected_state st H :=
  let a := fresh "a" in let c0 := fresh "c0" in let l := fresh "l" in
  let d := fresh "d" in let w := fresh "w" in let r := fresh "r" in
  let k := fresh "k" in let t := fresh "t" in
  destruct st as [a c0 l d w r k t];
  cbn [conn] in H; subst c0;
  unfold advance; cbn [Address conn Logger dials writes reads closes trace].

Lemma write_connected (net : network) (st : state) (c : nat) (request : slice) :
  conn st = Some c ->
  write net request st =
  (Ret (write_error net (writes st) request),
   advance st (Some c) 0 1 0 0 [EvWrite c (elems request)]).
Proof.
  intros H. connected_state st H.
  unfold write, conn_Write, write_error, mbind, get_conn, next_write, emit, ret.
  cbn [Address conn Logger dials writes reads closes trace].
  destruct (net_Write net w (elems request)) as [n [e |]].
  - reflexivity.
  - destruct (n <? len request); reflexivity.
Qed.

Lemma read_connected (net : network) (st : state) (c : nat) :
  conn st = Some c ->
  read net st =
  (Ret (read_result net (reads st)), advance st (Some c) 0 0 1 0 [EvRead c]).
Proof.
  intros H. connected_state st H.
  unfold read, conn_Read, read_result, mbind, get_conn, next_read, emit, ret.
  cbn [Address conn Logger dials writes reads closes trace].
  destruct (net_Read net r) as [stored err]. reflexivity.
Qed.

Lemma connect_connected (net : network) (st : state) (c : nat) :
  conn st = Some c ->
  connect net st = (Ret None, advance st (Some c) 0 0 0 0 [EvPrintln; EvSleep]).
Proof.
  intros H. connected_state st H.
  unfold connect, mbind, get_conn, emit, ret.
  cbn [Address conn Logger dials writes reads closes trace].
  rewrite <- app_assoc. reflexivity.
Qed.

Lemma reconnect_connected (net : network) (st : state) (c : nat) :
  conn st = Some c ->
  reconnect net st =
  match net_Dial net (dials st) with
  | Some e =>
    (Ret (Some e), advance st None 1 0 0 1 [EvClose c; EvPrintln; EvDial (dials st)])
  | None =>
    (Ret None,
     advance st (Some (dials st)) 1 0 0 1 [EvClose c; EvPrintln; EvDial (dials st); EvSleep])
  end.
Proof.
  intros H. connected_state st H.
  unfold reconnect, conn_Close, connect, Dial, mbind, get_conn, set_conn, next_close,
    next_dial, emit, ret.
  cbn [Address conn Logger dials writes reads closes trace].
  destruct (net_Dial net d);
    cbn [Address conn Logger dials writes reads closes trace];
    rewrite <- !app_assoc; reflexivity.
Qed.

Lemma logf_advance (format : string) (b : slice) (st : state) :
  logf format b st = (Ret tt, advance st (conn st) 0 0 0 0 (logged st format b)).
Proof.
  unfold logf, logged, emit, advance. destruct st as [a c l d w r k t].
  cbn [Address conn Logger dials writes reads closes trace].
  destruct l; [reflexivity | rewrite app_nil_r; reflexivity].
Qed.

(** [connect] on a transporter that holds no connection dials once. *)
Lemma connect_disconnected (net : network) (st : state) :
  conn st = None ->
  connect net st =
  match net_Dial net (dials st) with
  | Some e => (Ret (Some e), advance st None 1 0 0 0 [EvPrintln; EvDial (dials st)])
  | None =>
    (Ret None, advance st (Some (dials st)) 1 0 0 0 [EvPrintln; EvDial (dials st); EvSleep])
  end.
Proof.
  intros H. destruct st as [a c0 l d w r k t]. cbn [conn] in H. subst c0.
  unfold advance, connect, Dial, mbind, get_conn, set_conn, next_dial, emit, ret.
  cbn [Address conn Logger dials writes reads closes trace].
  destruct (net_Dial net d);
    cbn [Address conn Logger dials writes reads closes trace];
    rewrite <- !app_assoc; reflexivity.
Qed.

(** After a successful [connect] the transporter holds a connection. *)
Lemma connect_holds (net : network) (st0 st : state) :
  connect net st0 = (Ret None, st) -> exists c, conn st = Some c.
Proof.
  destruct (conn st0) as [c |] eqn:Hc.
  - rewrite (connect_connected net st0 c Hc). intros H. injection H as <-.
    exists c. reflexivity.
  - rewrite (connect_disconnected net st0 Hc).
    destruct (net_Dial net (dials st0)); intros H; [discriminate |].
    injection H as <-. eexists. reflexivity.
Qed.

(** The calls on a transporter that has moved on from [st]. *)

Lemma write_advanced (net : network) (st : state) (c d w r k : nat)
      (evs : list event) (request : slice) :
  write net request (advance st (Some c) d w r k evs) =
  (Ret (write_error net (w + writes st)%nat request),
   advance st (Some c) d (S w) r k (evs ++ [EvWrite c (elems request)])).
Proof.
  rewrite (write_connected net _ c) by reflexivity.
  rewrite advance_advance. reflexivity.
Qed.

Lemma read_advanced (net : network) (st : state) (c d w r k : nat) (evs : list event) :
  read net (advance st (Some c) d w r k evs) =
  (Ret (read_result net (r + reads st)%nat),
   advance st (Some c) d w (S r) k (evs ++ [EvRead c])).
Proof.
  rewrite (read_connected net _ c) by reflexivity.
  rewrite advance_advance. reflexivity.
Qed.

Lemma reconnect_advanced (net : network) (st : state) (c d w r k : nat)
      (evs : list event) :
  reconnect net (advance st (Some c) d w r k evs) =
  match net_Dial net (d + dials st)%nat with
  | Some e =>
    (Ret (Some e),
     advance st None (S d) w r (S k)
             (evs ++ [EvClose c; EvPrintln; EvDial (d + dials st)%nat]))
  | None =>
    (Ret None,
     advance st (Some (d + dials st)%nat) (S d) w r (S k)
             (evs ++ [EvClose c; EvPrintln; EvDial (d + dials st)%nat; EvSleep]))
  end.
Proof.
  rewrite (reconnect_connected net _ c) by reflexivity.
  change (dials (advance st (Some c) d w r k evs)) with (d + dials st)%nat.
  destruct (net_Dial net (d + dials st)%nat); rewrite advance_advance; reflexivity.
Qed.

Lemma logf_advanced (format : string) (b : slice) (st : state) (c : option nat)
      (d w r k : nat) (evs : list event) :
  logf format b (advance st c d w r k evs) =
  (Ret tt, advance st c d w r k (evs ++ logged st format b)).
Proof. rewrite logf_advance, advance_advance. reflexivity. Qed.

Ltac send_calls :=
  repeat first
    [ rewrite write_advanced
    | rewrite read_advanced
    | rewrite reconnect_advanced
    | rewrite logf_advanced
    | progress unfold ret
    | progress cbv beta iota
    | progress cbn [Nat.add errors_Is_EPIPE app fst snd] ].

(** ** Send: one recovery for a broken pipe *)

Section SendScenarios.

Variable net : network.
Variables st0 st : state.
Variable c : nat.
Variable aduRequest : slice.

(** [connect] has succeeded and left the transporter holding connection [c]. *)
Hypothesis connect_ok : connect net st0 = (Ret None, st).
Hypothesis holds : conn st = Some c.

Ltac send_enter :=
  unfold Send, mbind; rewrite connect_ok;
  rewrite (write_connected net st c aduRequest holds).

(** The write fails with a broken pipe and the reconnect fails. *)
Lemma Send_write_pipe_reconnect_fails (e e' : error) :
  write_error net (writes st) aduRequest = Some e -> is_EPIPE e = true ->
  net_Dial net (dials st) = Some e' ->
  Send net aduRequest st0 =
  (Ret (None, Some (Wrapped "failed to reconnect to" e')),
   advance st None 1 1 0 1
           [EvWrite c (elems aduRequest); EvClose c; EvPrintln; EvDial (dials st)]).
Proof.
  intros Hw He Hd. send_enter. rewrite Hw. cbn [errors_Is_EPIPE]. rewrite He.
  send_calls. rewrite Hd. reflexivity.
Qed.

(** The write fails with a broken pipe, the reconnect succeeds and the
    retried write fails, with whatever error. *)
Lemma Send_write_pipe_retry_fails (e e' : error) :
  write_error net (writes st) aduRequest = Some e -> is_EPIPE e = true ->
  net_Dial net (dials st) = None ->
  write_error net (S (writes st)) aduRequest = Some e' ->
  Send net aduRequest st0 =
  (Ret (None, Some (Wrapped "failed to write to" e')),
   advance st (Some (dials st)) 1 2 0 1
           [EvWrite c (elems aduRequest); EvClose c; EvPrintln; EvDial (dials st);
            EvSleep; EvWrite (dials st) (elems aduRequest)]).
Proof.
  intros Hw He Hd Hw'. send_enter. rewrite Hw. cbn [errors_Is_EPIPE]. rewrite He.
  send_calls. rewrite Hd. send_calls. rewrite Hw'. reflexivity.
Qed.

(** No failure at all. *)
Lemma Send_exchange (aduResponse : slice) :
  write_error net (writes st) aduRequest = None ->
  read_result net (reads st) = (aduResponse, None) ->
  Send net aduRequest st0 =
  (Ret (Some aduResponse, None),
   advance st (Some c) 0 1 1 0
           ([EvWrite c (elems aduRequest)]
            ++ logged st "SENT" aduRequest
            ++ [EvRead c]
            ++ logged st "RECD" aduResponse)).
Proof.
  intros Hw Hr. send_enter. rewrite Hw. send_calls. rewrite Hr. send_calls.
  rewrite <- ?app_assoc. reflexivity.
Qed.

(** The write fails with an error that is not a broken pipe: [Send] goes on
    to read, and what it returns is the outcome of the read. *)
Lemma Send_write_error_then_read (e : error) (aduResponse : slice) (err : option error) :
  write_error net (writes st) aduRequest = Some e -> is_EPIPE e = false ->
  read_result net (reads st) = (aduResponse, err) -> errors_Is_EPIPE err = false ->
  Send net aduRequest st0 =
  (Ret (Some aduResponse, err),
   advance st (Some c) 0 1 1 0
           ([EvWrite c (elems aduRequest)]
            ++ logged st "SENT" aduRequest
            ++ [EvRead c]
            ++ logged st "RECD" aduResponse)).
Proof.
  intros Hw He Hr Hne. send_enter. rewrite Hw. cbn [errors_Is_EPIPE]. rewrite He.
  send_calls. rewrite Hr, Hne. send_calls. rewrite <- ?app_assoc. reflexivity.
Qed.

End SendScenarios.

Ltac send_run :=
  repeat (send_calls;
          match goal with
          | H : ?x = _ |- context [?x] => rewrite H
          end);
  send_calls; rewrite <- ?app_assoc; try reflexivity.

(** C3: after a successful connect, a broken pipe on the write (resp. on the
    read) is followed by exactly one recovery — the socket is closed and
    dropped, one new connection is dialled, the same request is written again
    (and, for the read, read again) — and by no second one for that step: if
    the reconnect fails, or the retried write or read fails with whatever
    error (a broken pipe included), that error is returned to the caller.

    The first part is the write step when its write hits a broken pipe and
    the recovery fails.  The second part is the read step after every write
    step that lets [Send] go on: [n] is the number of recoveries the write
    step made and [c'] the connection it left, so either the first write did
    not fail with a broken pipe ([n = 0], the connection is still [c]; this
    includes a write that failed with another error), or it did and the
    reconnect and the retried write succeeded ([n = 1], the connection is the
    new one).  In both, a read that does not fail with a broken pipe ends the
    call with no further dial, and one that does is followed by one recovery
    of its own, whose four outcomes are given.  Every path through [Send]
    after the connect is one of these cases; the final state and the events
    are given exactly in each. *)
Theorem Send_recovers_once
        (net : network) (st0 st : state) (c : nat) (aduRequest : slice) :
  connect net st0 = (Ret None, st) -> conn st = Some c ->
  (forall e : error,
     write_error net (writes st) aduRequest = Some e -> is_EPIPE e = true ->
     (forall e' : error,
        net_Dial net (dials st) = Some e' ->
        Send net aduRequest st0 =
        (Ret (None, Some (Wrapped "failed to reconnect to" e')),
         advance st None 1 1 0 1
                 [EvWrite c (elems aduRequest); EvClose c; EvPrintln; EvDial (dials st)])) /\
     (forall e' : error,
        net_Dial net (dials st) = None ->
        write_error net (S (writes st)) aduRequest = Some e' ->
        Send net aduRequest st0 =
        (Ret (None, Some (Wrapped "failed to write to" e')),
         advance st (Some (dials st)) 1 2 0 1
                 [EvWrite c (elems aduRequest); EvClose c; EvPrintln; EvDial (dials st);
                  EvSleep; EvWrite (dials st) (elems aduRequest)]))) /\
  (forall (c' n : nat) (evs : list event),
     (errors_Is_EPIPE (write_error net (writes st) aduRequest) = false /\
      c' = c /\ n = 0%nat /\ evs = [EvWrite c (elems aduRequest)]) \/
     (errors_Is_EPIPE (write_error net (writes st) aduRequest) = true /\
      net_Dial net (dials st) = None /\
      write_error net (S (writes st)) aduRequest = None /\
      c' = dials st /\ n = 1%nat /\
      evs = [EvWrite c (elems aduRequest); EvClose c; EvPrintln; EvDial (dials st);
             EvSleep; EvWrite (dials st) (elems aduRequest)]) ->
     (forall (aduResponse : slice) (err : option error),
        read_result net (reads st) = (aduResponse, err) ->
        errors_Is_EPIPE err = false ->
        Send net aduRequest st0 =
        (Ret (Some aduResponse, err),
         advance st (Some c') n (S n) 1 n
                 (evs ++ logged st "SENT" aduRequest
                      ++ [EvRead c']
                      ++ logged st "RECD" aduResponse))) /\
     (forall (partial : slice) (e : error),
        read_result net (reads st) = (partial, Some e) -> is_EPIPE e = true ->
        (forall e' : error,
           net_Dial net (n + dials st) = Some e' ->
           Send net aduRequest st0 =
           (Ret (None, Some (Wrapped "failed to reconnect to" e')),
            advance st None (S n) (S n) 1 (S n)
                    (evs ++ logged st "SENT" aduRequest
                         ++ [EvRead c'; EvClose c'; EvPrintln; EvDial (n + dials st)]))) /\
        (forall e' : error,
           net_Dial net (n + dials st) = None ->
           write_error net (S n + writes st) aduRequest = Some e' ->
           Send net aduRequest st0 =
           (Ret (None, Some (Wrapped "failed to write to" e')),
            advance st (Some (n + dials st)%nat) (S n) (S (S n)) 1 (S n)
                    (evs ++ logged st "SENT" aduRequest
                         ++ [EvRead c'; EvClose c'; EvPrintln; EvDial (n + dials st);
                             EvSleep; EvWrite (n + dials st) (elems aduRequest)]))) /\
        (forall (partial' : slice) (e' : error),
           net_Dial net (n + dials st) = None ->
           write_error net (S n + writes st) aduRequest = None ->
           read_result net (S (reads st)) = (partial', Some e') ->
           Send net aduRequest st0 =
           (Ret (None, Some (Wrapped "failed to read from" e')),
            advance st (Some (n + dials st)%nat) (S n) (S (S n)) 2 (S n)
                    (evs ++ logged st "SENT" aduRequest
                         ++ [EvRead c'; EvClose c'; EvPrintln; EvDial (n + dials st);
                             EvSleep; EvWrite (n + dials st) (elems aduRequest);
                             EvRead (n + dials st)]))) /\
        (forall aduResponse : slice,
           net_Dial net (n + dials st) = None ->
           write_error net (S n + writes st) aduRequest = None ->
           read_result net (S (reads st)) = (aduResponse, None) ->
           Send net aduRequest st0 =
           (Ret (Some aduResponse, None),
            advance st (Some (n + dials st)%nat) (S n) (S (S n)) 2 (S n)
                    (evs ++ logged st "SENT" aduRequest
                         ++ [EvRead c'; EvClose c'; EvPrintln; EvDial (n + dials st);
                             EvSleep; EvWrite (n + dials st) (elems aduRequest);
                             EvRead (n + dials st)]
                         ++ logged st "RECD" aduResponse))))).
Proof.
  intros Hc Hh. split.
  - intros e Hw He. split.
    + intros e' Hd. eapply Send_write_pipe_reconnect_fails; eassumption.
    + intros e' Hd Hw'. eapply Send_write_pipe_retry_fails; eassumption.
  - intros c' n evs Hstep.
    destruct Hstep as [[Hne [-> [-> ->]]] | [He [Hd [Hw' [-> [-> ->]]]]]];
      cbn [Nat.add];
      (split; [| intros partial e Hr Hpipe; split; [| split; [| split]]]);
      intros;
      unfold Send, mbind; rewrite Hc, (write_connected net st c aduRequest Hh);
      send_run.
Qed.

(** The transporter of the package's Send test on a network whose first
    write, resp. first read, hits a broken pipe: one close, one more dial,
    the request written twice, and the response returned.  On a network where
    both do, each step recovers once: two closes, two more dials, the request
    written three times, and the response of the second read returned. *)
Lemma Send_recovers_once_witness :
  (exists st',
     Send net_write_pipe (of_list verify_request) (fresh "192.168.1.1:8899")
     = (Ret (Some (fst (read_result net_write_pipe 0)), None), st') /\
     trace st' = [EvPrintln; EvDial 0; EvSleep;
                  EvWrite 0 verify_request; EvClose 0; EvPrintln; EvDial 1; EvSleep;
                  EvWrite 1 verify_request; EvRead 1]) /\
  (exists st',
     Send net_read_pipe (of_list verify_request) (fresh "192.168.1.1:8899")
     = (Ret (Some (fst (read_result net_read_pipe 1)), None), st') /\
     trace st' = [EvPrintln; EvDial 0; EvSleep;
                  EvWrite 0 verify_request; EvRead 0; EvClose 0; EvPrintln; EvDial 1;
                  EvSleep; EvWrite 1 verify_request; EvRead 1]) /\
  (exists st',
     Send net_pipes (of_list verify_request) (fresh "192.168.1.1:8899")
     = (Ret (Some (fst (read_result net_pipes 1)), None), st') /\
     trace st' = [EvPrintln; EvDial 0; EvSleep;
                  EvWrite 0 verify_request; EvClose 0; EvPrintln; EvDial 1; EvSleep;
                  EvWrite 1 verify_request; EvRead 1; EvClose 1; EvPrintln; EvDial 2;
                  EvSleep; EvWrite 2 verify_request; EvRead 2]).
Proof.
  split; [| split].
  - eexists. split.
    + refine (proj1 (proj2 (Send_recovers_once
               net_write_pipe (fresh "192.168.1.1:8899") connected_transporter 0%nat
               (of_list verify_request) _ _)
               1%nat 1%nat
               [EvWrite 0 verify_request; EvClose 0; EvPrintln; EvDial 1; EvSleep;
                EvWrite 1 verify_request]
               (or_intror _))
               _ None _ _); repeat split.
    + reflexivity.
  - eexists. split.
    + refine (proj2 (proj2 (proj2 (proj2 (proj2 (Send_recovers_once
               net_read_pipe (fresh "192.168.1.1:8899") connected_transporter 0%nat
               (of_list verify_request) _ _)
               0%nat 0%nat [EvWrite 0 verify_request] (or_introl _))
               (fst (read_result net_read_pipe 0))
               (Wrapped "read tcp" EPIPE) _ _)))
               _ _ _ _); repeat split.
    + reflexivity.
  - eexists. split.
    + refine (proj2 (proj2 (proj2 (proj2 (proj2 (Send_recovers_once
               net_pipes (fresh "192.168.1.1:8899") connected_transporter 0%nat
               (of_list verify_request) _ _)
               1%nat 1%nat
               [EvWrite 0 verify_request; EvClose 0; EvPrintln; EvDial 1; EvSleep;
                EvWrite 1 verify_request]
               (or_intror _))
               (fst (read_result net_pipes 0))
               (Wrapped "read tcp" EPIPE) _ _)))
               _ _ _ _); repeat split.
    + reflexivity.
Defined.

(** C2 at the transporter of the package's Send test on a network that
    resets the connection under the first write and then delivers a response:
    the write fails with an error that is not a broken pipe, and [Send]
    returns the response with a nil error. *)
Theorem Send_loses_write_error :
  let aduRequest := of_list verify_request in
  let failure := Wrapped "write tcp" (Errno 104) in
  write_error net_reset 0 aduRequest = Some failure /\
  is_EPIPE failure = false /\
  exists (aduResponse : slice) (st' : state),
    Send net_reset aduRequest (fresh "192.168.1.1:8899")
    = (Ret (Some aduResponse, None), st') /\
    elems aduResponse = verify_response /\
    trace st' = [EvPrintln; EvDial 0; EvSleep; EvWrite 0 verify_request; EvRead 0].
Proof.
  cbv zeta. split; [reflexivity |]. split; [reflexivity |].
  eexists. eexists. split; [| split].
  - eapply (Send_write_error_then_read net_reset (fresh "192.168.1.1:8899")
              connected_transporter 0%nat (of_list verify_request));
      reflexivity.
  - reflexivity.
  - reflexivity.
Qed.

(** ** Parse: what is accepted, what panics *)

Lemma Parse_Ok_iff (data : slice) (response : Response) :
  Parse data = Ok response <->
  32 <= len data /\
  byte_at (elems data) 0 = StartByte /\
  outer_checksum (elems data) = byte_at (elems data) (len data - 2) /\
  uint16_at (elems data) 1 = (len data - 13) mod 65536 /\
  rtu_crc_provided (elems data) = rtu_crc_expected (elems data) /\
  response =
  mkResponse
    (header_of (elems data))
    (mkPayload (byte_at (elems data) 11) (byte_at (elems data) 12)
               (uint32_at (elems data) 13) (uint32_at (elems data) 17)
               (uint32_at (elems data) 21)
               (mkPDU (byte_at (elems data) 26)
                      (mkSlice (range (elems data) 27 (len data - 4))
                               (skipn (Z.to_nat (len data - 4))
                                      (elems data ++ spare data)))))
    (byte_at (elems data) (len data - 1)).
Proof.
  rewrite Parse_cases_eq. unfold Parse_cases.
  destruct (len data <? 11) eqn:H11.
  { apply Z.ltb_lt in H11. split; [discriminate | intros [H _]; lia]. }
  destruct (byte_at (elems data) 0 =? StartByte) eqn:Hs; cbn [negb].
  2: { apply Z.eqb_neq in Hs. split; [discriminate | intros [_ [H _]]; contradiction]. }
  destruct (outer_checksum (elems data) =? byte_at (elems data) (len data - 2)) eqn:Hc;
    cbn [negb].
  2: { apply Z.eqb_neq in Hc.
       split; [discriminate | intros [_ [_ [H _]]]; contradiction]. }
  destruct (len data <? 13) eqn:H13.
  { apply Z.ltb_lt in H13. split; [discriminate | intros [H _]; lia]. }
  destruct (uint16_at (elems data) 1 =? (len data - 13) mod 65536) eqn:Hl; cbn [negb].
  2: { apply Z.eqb_neq in Hl.
       split; [discriminate | intros [_ [_ [_ [H _]]]]; contradiction]. }
  destruct (len data <? 27) eqn:H27.
  { apply Z.ltb_lt in H27. split; [discriminate | intros [H _]; lia]. }
  destruct (len data <? 32) eqn:H32.
  { apply Z.ltb_lt in H32. split; [discriminate | intros [H _]; lia]. }
  apply Z.ltb_ge in H32. apply Z.eqb_eq in Hs, Hc, Hl.
  destruct (list_eq_dec Z.eq_dec (rtu_crc_provided (elems data))
                                 (rtu_crc_expected (elems data))) as [Hcrc | Hcrc];
    cbn [negb].
  - split.
    + intros H. injection H as <-. repeat (split; [assumption |]). reflexivity.
    + intros [_ [_ [_ [_ [_ ->]]]]]. reflexivity.
  - split; [discriminate | intros [_ [_ [_ [_ [H _]]]]]; contradiction].
Qed.

Lemma Parse_Panic_iff (data : slice) (p : panic) :
  Parse data = Panic p <->
  byte_at (elems data) 0 = StartByte /\
  outer_checksum (elems data) = byte_at (elems data) (len data - 2) /\
  (11 <= len data < 13 /\ p = SliceBounds 11 (len data - 2) (cap data) \/
   13 <= len data < 27 /\ uint16_at (elems data) 1 = len data - 13 /\
   p = SliceBounds 25 (len data - 2) (cap data)).
Proof.
  rewrite Parse_cases_eq. unfold Parse_cases.
  destruct (len data <? 11) eqn:H11.
  { apply Z.ltb_lt in H11.
    split; [discriminate | intros [_ [_ [[H _] | [H _]]]]; lia]. }
  apply Z.ltb_ge in H11.
  destruct (byte_at (elems data) 0 =? StartByte) eqn:Hs; cbn [negb].
  2: { apply Z.eqb_neq in Hs. split; [discriminate | intros [H _]; contradiction]. }
  destruct (outer_checksum (elems data) =? byte_at (elems data) (len data - 2)) eqn:Hc;
    cbn [negb].
  2: { apply Z.eqb_neq in Hc. split; [discriminate | intros [_ [H _]]; contradiction]. }
  apply Z.eqb_eq in Hs, Hc.
  destruct (len data <? 13) eqn:H13.
  { apply Z.ltb_lt in H13. split.
    - intros H. injection H as <-. repeat split; try assumption. left. split; [lia | reflexivity].
    - intros [_ [_ [[_ ->] | [H _]]]]; [reflexivity | lia]. }
  apply Z.ltb_ge in H13.
  destruct (uint16_at (elems data) 1 =? (len data - 13) mod 65536) eqn:Hl; cbn [negb].
  2: { apply Z.eqb_neq in Hl. split; [discriminate |].
       intros [_ [_ [[H _] | [H [Hd _]]]]]; [lia |].
       rewrite Z.mod_small in Hl by lia. contradiction. }
  apply Z.eqb_eq in Hl.
  destruct (len data <? 27) eqn:H27.
  { apply Z.ltb_lt in H27. rewrite Z.mod_small in Hl by lia. split.
    - intros H. injection H as <-. repeat split; try assumption.
      right. repeat split; assumption || lia.
    - intros [_ [_ [[H _] | [_ [_ ->]]]]]; [lia | reflexivity]. }
  apply Z.ltb_ge in H27.
  destruct (len data <? 32);
    [split; [discriminate | intros [_ [_ [[H _] | [H _]]]]; lia] |].
  destruct (negb _);
    (split; [discriminate | intros [_ [_ [[H _] | [H _]]]]; lia]).
Qed.

Lemma byte_at_app_l (a b : list Z) (i : Z) :
  0 <= i < Z.of_nat (length a) -> byte_at (a ++ b) i = byte_at a i.
Proof. intros H. unfold byte_at. apply app_nth1. lia. Qed.

Lemma range_app_l (a b : list Z) (lo hi : Z) :
  0 <= lo <= hi -> hi <= Z.of_nat (length a) -> range (a ++ b) lo hi = range a lo hi.
Proof.
  intros H1 H2. unfold range.
  rewrite skipn_app, firstn_app, length_skipn.
  replace (Z.to_nat (hi - lo) - (length a - Z.to_nat lo))%nat with 0%nat by lia.
  rewrite firstn_O, app_nil_r. reflexivity.
Qed.

Lemma byte_sum_app (a b : list Z) : byte_sum (a ++ b) = byte_sum a + byte_sum b.
Proof.
  unfold byte_sum. induction a as [| x a IH]; cbn [app fold_right]; [reflexivity |].
  rewrite IH. lia.
Qed.

Lemma CheckSum_sum (l : list Z) : CheckSum (of_list l) = byte_sum l mod 256.
Proof. unfold CheckSum. rewrite land_255, CheckSum_loop. reflexivity. Qed.

(** Two byte sequences that differ in one byte have different checksums. *)
Lemma CheckSum_changed_byte (a b : list Z) (x y : Z) :
  is_byte x -> is_byte y -> x <> y ->
  CheckSum (of_list (a ++ y :: b)) <> CheckSum (of_list (a ++ x :: b)).
Proof.
  unfold is_byte. intros Hx Hy Hne. rewrite !CheckSum_sum, !byte_sum_app.
  change (byte_sum (y :: b)) with (y + byte_sum b).
  change (byte_sum (x :: b)) with (x + byte_sum b).
  generalize (byte_sum a) as A, (byte_sum b) as B. intros A B H.
  pose proof (Z.div_mod (A + (y + B)) 256 ltac:(lia)) as Dy.
  pose proof (Z.div_mod (A + (x + B)) 256 ltac:(lia)) as Dx.
  rewrite H in Dy. lia.
Qed.

Section ChangedByte.

Variables a b sp : list Z.
Variables x y cs e : Z.

Let frame (v : Z) : list Z := [StartByte] ++ (a ++ v :: b) ++ [cs; e].

Lemma frame_length (v : Z) :
  Z.of_nat (length (frame v)) = Z.of_nat (length a) + Z.of_nat (length b) + 4.
Proof. unfold frame. rewrite !length_app. cbn [length]. lia. Qed.

Lemma frame_outer_checksum (v : Z) :
  outer_checksum (frame v) = CheckSum (of_list (a ++ v :: b)).
Proof.
  unfold outer_checksum. rewrite frame_length. unfold frame.
  rewrite range_mid; [reflexivity | reflexivity |].
  rewrite length_app. cbn [length]. lia.
Qed.

Lemma frame_checksum_byte (v : Z) :
  byte_at (frame v) (Z.of_nat (length (frame v)) - 2) = cs.
Proof.
  rewrite frame_length. unfold frame. rewrite app_assoc.
  apply byte_at_mid. rewrite !length_app. cbn [length]. lia.
Qed.

Lemma Parse_changed_byte :
  7 <= Z.of_nat (length a) + Z.of_nat (length b) ->
  CheckSum (of_list (a ++ x :: b)) = cs ->
  is_byte x -> is_byte y -> x <> y ->
  Parse (mkSlice (frame y) sp) =
  Err (ChecksumMismatch (CheckSum (of_list (a ++ y :: b))) cs).
Proof.
  intros Hn Hcs Hx Hy Hne.
  pose proof (Parse_rejects_checksum (mkSlice (frame y) sp)) as H.
  unfold len in H. cbn [elems] in H.
  rewrite frame_outer_checksum, frame_checksum_byte in H. apply H.
  - rewrite frame_length. lia.
  - reflexivity.
  - rewrite <- Hcs. apply CheckSum_changed_byte; assumption.
Qed.

End ChangedByte.

(** X3: a frame whose outer checksum is right stops being accepted when one
    byte between the start marker and the checksum is replaced by another
    byte: [Parse] answers with the checksum-mismatch error. *)
Theorem Parse_detects_changed_byte (a b sp : list Z) (x y e : Z) :
  7 <= Z.of_nat (length a) + Z.of_nat (length b) ->
  is_byte x -> is_byte y -> x <> y ->
  let cs := CheckSum (of_list (a ++ x :: b)) in
  Parse (mkSlice ([StartByte] ++ (a ++ y :: b) ++ [cs; e]) sp) =
  Err (ChecksumMismatch (CheckSum (of_list (a ++ y :: b))) cs).
Proof.
  intros Hn Hx Hy Hne cs. apply (Parse_changed_byte a b sp x y cs e); auto.
Qed.

Section LastByte.

Variable body : list Z.
Variable e : Z.
Hypothesis long_enough : 31 <= Z.of_nat (length body).

Let d := body ++ [e].

Lemma last_length : Z.of_nat (length d) = Z.of_nat (length body) + 1.
Proof. unfold d. rewrite length_app. cbn [length]. lia. Qed.

Lemma last_byte_at (i : Z) : 0 <= i < Z.of_nat (length body) -> byte_at d i = byte_at body i.
Proof. intros H. apply byte_at_app_l. assumption. Qed.

Lemma last_uint16_at (i : Z) :
  0 <= i -> i + 1 < Z.of_nat (length body) -> uint16_at d i = uint16_at body i.
Proof. intros H0 H. unfold uint16_at. rewrite !last_byte_at by lia. reflexivity. Qed.

Lemma last_uint32_at (i : Z) :
  0 <= i -> i + 3 < Z.of_nat (length body) -> uint32_at d i = uint32_at body i.
Proof. intros H0 H. unfold uint32_at. rewrite !last_byte_at by lia. reflexivity. Qed.

Lemma last_header_of : header_of d = header_of body.
Proof.
  unfold header_of. rewrite last_byte_at, !last_uint16_at, last_uint32_at by lia.
  reflexivity.
Qed.

Lemma last_outer_checksum :
  outer_checksum d = CheckSum (of_list (range body 1 (Z.of_nat (length body) - 1))).
Proof.
  unfold outer_checksum. rewrite last_length. unfold d.
  rewrite range_app_l by lia. do 3 f_equal. lia.
Qed.

Lemma last_rtu_of : rtu_of d = range body 25 (Z.of_nat (length body) - 1).
Proof.
  unfold rtu_of. rewrite last_length. unfold d.
  rewrite range_app_l by lia. f_equal. lia.
Qed.

Lemma last_is_end : byte_at d (Z.of_nat (length d) - 1) = e.
Proof. rewrite last_length. unfold d. apply byte_at_mid. lia. Qed.

End LastByte.

Lemma Parse_end_marker (body sp sp' : list Z) (e e' : Z) (response : Response) :
  Parse (mkSlice (body ++ [e]) sp) = Ok response ->
  exists response',
    Parse (mkSlice (body ++ [e']) sp') = Ok response' /\
    resp_Header response' = resp_Header response /\
    rp_FrameType (Payload response') = rp_FrameType (Payload response) /\
    rp_Status (Payload response') = rp_Status (Payload response) /\
    rp_TotalWorkingTime (Payload response') = rp_TotalWorkingTime (Payload response) /\
    rp_PowerOnTime (Payload response') = rp_PowerOnTime (Payload response) /\
    rp_OffsetTime (Payload response') = rp_OffsetTime (Payload response) /\
    FunctionCode (ModbusRTUFrame (Payload response'))
    = FunctionCode (ModbusRTUFrame (Payload response)) /\
    elems (Data (ModbusRTUFrame (Payload response')))
    = elems (Data (ModbusRTUFrame (Payload response))) /\
    Checksum response = e /\ Checksum response' = e'.
Proof.
  intros H. apply Parse_Ok_iff in H. unfold len in H. cbn [elems spare] in H.
  destruct H as [Hn [Hs [Hc [Hl [Hcrc ->]]]]].
  pose proof (last_length body e) as Le. pose proof (last_length body e') as Le'.
  assert (Hb : 31 <= Z.of_nat (length body)) by lia.
  unfold rtu_crc_provided, rtu_crc_expected in Hcrc.
  rewrite last_outer_checksum, Le, last_byte_at in Hc by lia.
  rewrite last_uint16_at, Le in Hl by lia.
  rewrite last_byte_at in Hs by lia.
  rewrite !last_rtu_of in Hcrc by lia.
  eexists. split.
  - apply Parse_Ok_iff. unfold len. cbn [elems spare].
    unfold rtu_crc_provided, rtu_crc_expected.
    rewrite last_outer_checksum, !last_rtu_of, last_uint16_at by lia.
    rewrite !Le'. rewrite !last_byte_at by lia.
    repeat (split; [assumption || lia |]). reflexivity.
  - cbn [resp_Header Payload rp_FrameType rp_Status rp_TotalWorkingTime rp_PowerOnTime
         rp_OffsetTime ModbusRTUFrame FunctionCode Data Checksum elems].
    unfold len. cbn [elems].
    rewrite ?last_header_of, ?last_uint32_at, ?last_is_end by lia.
    rewrite ?Le, ?Le'. rewrite ?last_byte_at by lia.
    rewrite !range_app_l by lia.
    repeat split. apply byte_at_mid. lia.
Qed.

(** ** CRC-16 and the checksum under changes of the input *)

Lemma lxor_cancel_l (c x y : Z) : Z.lxor c x = Z.lxor c y -> x = y.
Proof.
  intros H. apply (f_equal (Z.lxor c)) in H.
  rewrite <- !Z.lxor_assoc, !Z.lxor_nilpotent, !Z.lxor_0_l in H. exact H.
Qed.

Lemma crc_byte_inj_byte (c x y : Z) :
  is_u16 c -> is_byte x -> is_byte y -> crc_byte c x = crc_byte c y -> x = y.
Proof.
  intros Hc Hx Hy. unfold crc_byte. cbn [Nat.iter].
  assert (Hx16 : is_u16 x) by (unfold is_u16, is_byte in *; lia).
  assert (Hy16 : is_u16 y) by (unfold is_u16, is_byte in *; lia).
  pose proof (lxor_u16 c x Hc Hx16) as Xx. pose proof (lxor_u16 c y Hc Hy16) as Xy.
  intros H.
  do 8 (apply crc_shift_inj in H; [| repeat apply crc_shift_u16; assumption
                                    | repeat apply crc_shift_u16; assumption]).
  apply lxor_cancel_l in H. exact H.
Qed.

Lemma crc_register_changed_byte (a b : list Z) (x y : Z) :
  Forall is_byte a -> Forall is_byte b -> is_byte x -> is_byte y -> x <> y ->
  crc_register (a ++ x :: b) <> crc_register (a ++ y :: b).
Proof.
  intros Ha Hb Hx Hy Hne H. unfold crc_register in H.
  rewrite !fold_left_app in H. cbn [fold_left] in H.
  assert (Hc : is_u16 (fold_left crc_byte a 65535))
    by (apply crc_fold_u16; [unfold is_u16; lia | assumption]).
  apply crc_fold_inj in H; [| assumption | apply crc_byte_u16; assumption
                            | apply crc_byte_u16; assumption].
  apply crc_byte_inj_byte in H; [contradiction | assumption ..].
Qed.

Lemma CRCFromBytes_detects_changed_rtu_byte (a b : list Z) (x y : Z) :
  Forall is_byte a -> Forall is_byte b -> is_byte x -> is_byte y -> x <> y ->
  elems (CRCFromBytes (of_list (a ++ x :: b)))
  <> elems (CRCFromBytes (of_list (a ++ y :: b))).
Proof.
  intros Ha Hb Hx Hy Hne H. apply CRCFromBytes_inj in H.
  - revert H. apply crc_register_changed_byte; assumption.
  - apply Forall_app. split; [assumption | constructor; assumption].
  - apply Forall_app. split; [assumption | constructor; assumption].
Qed.

(** X5: the CRC-16 tells apart any two byte sequences that differ in exactly
    one byte. *)
Theorem CRCFromBytes_detects_changed_byte (a b : list Z) (x y : Z) :
  Forall is_byte a -> Forall is_byte b -> is_byte x -> is_byte y -> x <> y ->
  elems (CRCFromBytes (of_list (a ++ x :: b)))
  <> elems (CRCFromBytes (of_list (a ++ y :: b))).
Proof.
  intros Ha Hb Hx Hy Hne H. apply CRCFromBytes_inj in H.
  - revert H. apply crc_register_changed_byte; assumption.
  - apply Forall_app. split; [assumption | constructor; assumption].
  - apply Forall_app. split; [assumption | constructor; assumption].
Qed.

Lemma CRCFromBytes_detects_changed_byte_witness :
  elems (CRCFromBytes (of_list ([0x01; 0x03] ++ 0x02 :: [0x71; 0x00; 0x01])))
  <> elems (CRCFromBytes (of_list ([0x01; 0x03] ++ 0x04 :: [0x71; 0x00; 0x01]))).
Proof.
  refine (CRCFromBytes_detects_changed_byte [0x01; 0x03] [0x71; 0x00; 0x01] 0x02 0x04
            _ _ _ _ _).
  - repeat (constructor; [unfold is_byte; lia |]). constructor.
  - repeat (constructor; [unfold is_byte; lia |]). constructor.
  - unfold is_byte. lia.
  - unfold is_byte. lia.
  - lia.
Defined.

(** X6: the checksum of a concatenation is the sum of the two checksums
    modulo 256, and a checksum is always a byte. *)
Theorem CheckSum_of_concatenation (a b : list Z) :
  CheckSum (of_list (a ++ b))
  = (CheckSum (of_list a) + CheckSum (of_list b)) mod 256 /\
  is_byte (CheckSum (of_list a)).
Proof.
  rewrite !CheckSum_sum, byte_sum_app. split.
  - rewrite <- Z.add_mod by lia. reflexivity.
  - unfold is_byte. apply Z.mod_pos_bound. lia.
Qed.

Lemma range_of_suffix (a b : list Z) (lo hi : Z) :
  lo = Z.of_nat (length a) -> hi = lo + Z.of_nat (length b) -> range (a ++ b) lo hi = b.
Proof.
  intros H1 H2. rewrite <- (app_nil_r b) at 1. apply range_mid; assumption.
Qed.

Lemma range_of_prefix (a b : list Z) (hi : Z) :
  hi = Z.of_nat (length a) -> range (a ++ b) 0 hi = a.
Proof.
  intros H. change (a ++ b) with ([] ++ a ++ b). apply range_mid; [reflexivity | lia].
Qed.

Section ChangedRTUByte.

Variables pre ra rb sp : list Z.
Variables x e : Z.

(** The CRC-16 the segment was sent with. *)
Let crc := elems (CRCFromBytes (of_list (ra ++ x :: rb))).

(** The frame with [v] in the place of [x], its outer checksum recomputed. *)
Let body (v : Z) : list Z := pre ++ (ra ++ v :: rb) ++ crc.
Let frame (v : Z) : list Z := body v ++ [CheckSum (of_list (skipn 1 (body v))); e].

Hypothesis pre_length : length pre = 25%nat.
Hypothesis pre_start : byte_at pre 0 = StartByte.
Hypothesis pre_declares :
  uint16_at pre 1 = (Z.of_nat (length ra) + Z.of_nat (length rb) + 17) mod 65536.
Hypothesis rtu_long : 2 <= Z.of_nat (length ra) + Z.of_nat (length rb).

Lemma rtu_frame_length (v : Z) :
  Z.of_nat (length (frame v)) = Z.of_nat (length ra) + Z.of_nat (length rb) + 30.
Proof.
  unfold frame, body, crc. rewrite !length_app, pre_length. cbn [length].
  unfold CRCFromBytes, of_list. cbn [elems length]. lia.
Qed.

Lemma rtu_frame_start (v : Z) : byte_at (frame v) 0 = StartByte.
Proof.
  unfold frame, body. rewrite <- app_assoc, byte_at_app_l by (rewrite pre_length; lia).
  exact pre_start.
Qed.

Lemma rtu_frame_declares (v : Z) :
  uint16_at (frame v) 1 = (Z.of_nat (length (frame v)) - 13) mod 65536.
Proof.
  rewrite rtu_frame_length. unfold uint16_at, frame, body.
  rewrite <- app_assoc, !byte_at_app_l by (rewrite pre_length; lia).
  fold (uint16_at pre 1). rewrite pre_declares. f_equal. lia.
Qed.

Lemma rtu_frame_checksum (v : Z) :
  outer_checksum (frame v) = byte_at (frame v) (Z.of_nat (length (frame v)) - 2).
Proof.
  pose proof (rtu_frame_length v) as Hn.
  assert (Hb : Z.of_nat (length (body v)) = Z.of_nat (length ra) + Z.of_nat (length rb) + 28).
  { unfold frame in Hn. rewrite length_app in Hn. cbn [length] in Hn. lia. }
  rewrite Hn. unfold frame.
  rewrite (byte_at_mid (body v)) by lia.
  unfold outer_checksum. rewrite length_app. cbn [length].
  destruct (body v) as [| s rest] eqn:Hbody; [cbn [length] in Hb; lia |].
  cbn [skipn]. change ((s :: rest) ++ ?t) with ([s] ++ rest ++ t).
  rewrite range_mid; [reflexivity | reflexivity |].
  cbn [length] in *. lia.
Qed.

Lemma rtu_frame_rtu (v : Z) : rtu_of (frame v) = (ra ++ v :: rb) ++ crc.
Proof.
  unfold rtu_of. rewrite rtu_frame_length. unfold frame, body.
  rewrite <- app_assoc. apply range_mid.
  - rewrite pre_length. reflexivity.
  - rewrite !length_app. unfold crc, CRCFromBytes, of_list.
    cbn [elems length]. lia.
Qed.

Lemma rtu_frame_provided (v : Z) : rtu_crc_provided (frame v) = crc.
Proof.
  unfold rtu_crc_provided. rewrite rtu_frame_rtu. apply range_of_suffix.
  - rewrite !length_app. unfold crc, CRCFromBytes, of_list. cbn [elems length]. lia.
  - unfold crc, CRCFromBytes, of_list. cbn [elems length]. lia.
Qed.

Lemma rtu_frame_expected (v : Z) :
  rtu_crc_expected (frame v) = elems (CRCFromBytes (of_list (ra ++ v :: rb))).
Proof.
  unfold rtu_crc_expected. rewrite rtu_frame_rtu.
  rewrite (range_of_prefix (ra ++ v :: rb) crc); [reflexivity |].
  rewrite !length_app. unfold crc, CRCFromBytes, of_list. cbn [elems length]. lia.
Qed.

Lemma Parse_unchanged_rtu :
  exists response, Parse (mkSlice (frame x) sp) = Ok response.
Proof.
  destruct (Parse_accepts (mkSlice (frame x) sp)) as [response [H _]];
    unfold len; cbn [elems].
  - rewrite rtu_frame_length. lia.
  - apply rtu_frame_start.
  - apply rtu_frame_checksum.
  - apply rtu_frame_declares.
  - rewrite rtu_frame_provided, rtu_frame_expected. reflexivity.
  - exists response. exact H.
Qed.

Lemma Parse_changed_rtu (y : Z) :
  Forall is_byte ra -> Forall is_byte rb -> is_byte x -> is_byte y -> x <> y ->
  Parse (mkSlice (frame y) sp) =
  Err (CRCMismatch (elems (CRCFromBytes (of_list (ra ++ y :: rb)))) crc).
Proof.
  intros Ha Hb Hx Hy Hne.
  pose proof (Parse_rejects_crc (mkSlice (frame y) sp)) as H.
  unfold len in H. cbn [elems] in H.
  rewrite rtu_frame_provided, rtu_frame_expected in H. apply H.
  - rewrite rtu_frame_length. lia.
  - apply rtu_frame_start.
  - apply rtu_frame_checksum.
  - apply rtu_frame_declares.
  - unfold crc. apply CRCFromBytes_detects_changed_rtu_byte; assumption.
Qed.

End ChangedRTUByte.

(** X4: a response whose RTU segment carries the right CRC-16 is accepted;
    with one byte of the segment before the CRC replaced by another byte, and
    the outer checksum recomputed, [Parse] answers with the CRC-mismatch
    error. *)
Theorem Parse_detects_changed_rtu_byte (pre ra rb sp : list Z) (x y e : Z) :
  length pre = 25%nat ->
  byte_at pre 0 = StartByte ->
  uint16_at pre 1 = (Z.of_nat (length ra) + Z.of_nat (length rb) + 17) mod 65536 ->
  2 <= Z.of_nat (length ra) + Z.of_nat (length rb) ->
  Forall is_byte ra -> Forall is_byte rb -> is_byte x -> is_byte y -> x <> y ->
  let crc := elems (CRCFromBytes (of_list (ra ++ x :: rb))) in
  let frame := fun v : Z =>
    (pre ++ (ra ++ v :: rb) ++ crc)
    ++ [CheckSum (of_list (skipn 1 (pre ++ (ra ++ v :: rb) ++ crc))); e] in
  (exists response, Parse (mkSlice (frame x) sp) = Ok response) /\
  Parse (mkSlice (frame y) sp) =
  Err (CRCMismatch (elems (CRCFromBytes (of_list (ra ++ y :: rb)))) crc).
Proof.
  intros Hp Hs Hd Hl Ha Hb Hx Hy Hne crc frame. split.
  - apply Parse_unchanged_rtu; assumption.
  - apply Parse_changed_rtu; assumption.
Qed.

(** ** Integers as little-endian bytes *)

Lemma testbit_byte_part (v k n : Z) :
  0 <= k -> 0 <= n ->
  Z.testbit (Z.shiftl (Z.shiftr v k mod 2 ^ 8) k) n
  = (k <=? n) && (n <? k + 8) && Z.testbit v n.
Proof.
  intros Hk Hn. destruct (Z_lt_le_dec n k) as [Hlt | Hge].
  - rewrite Z.shiftl_spec_low by lia.
    rewrite (proj2 (Z.leb_gt k n)) by lia. reflexivity.
  - rewrite Z.shiftl_spec, Z.testbit_mod_pow2, Z.shiftr_spec by lia.
    replace (n - k + k) with n by lia.
    rewrite (proj2 (Z.leb_le k n)) by lia. cbn [andb].
    destruct (n - k <? 8) eqn:H1; destruct (n <? k + 8) eqn:H2; try reflexivity;
      rewrite ?Z.ltb_lt, ?Z.ltb_ge in *; lia.
Qed.

Lemma uint32_recompose (v : Z) :
  Z.lor (Z.lor (Z.lor (v mod 256) (Z.shiftl (Z.shiftr v 8 mod 256) 8))
               (Z.shiftl (Z.shiftr v 16 mod 256) 16))
        (Z.shiftl (Z.shiftr v 24 mod 256) 24)
  = v mod 2 ^ 32.
Proof.
  change 256 with (2 ^ 8). apply Z.bits_inj'. intros n Hn.
  rewrite !Z.lor_spec, !testbit_byte_part, !Z.testbit_mod_pow2 by lia.
  destruct (Z.testbit v n); rewrite ?andb_false_r; [| reflexivity].
  rewrite !andb_true_r.
  destruct (n <? 8) eqn:A; destruct (8 <=? n) eqn:B; destruct (n <? 8 + 8) eqn:C;
    destruct (16 <=? n) eqn:D; destruct (n <? 16 + 8) eqn:E;
    destruct (24 <=? n) eqn:F; destruct (n <? 24 + 8) eqn:G;
    destruct (n <? 32) eqn:H; try reflexivity;
    rewrite ?Z.ltb_lt, ?Z.ltb_ge, ?Z.leb_le, ?Z.leb_gt in *; lia.
Qed.

Lemma uint16_recompose_mod (v : Z) :
  Z.lor (v mod 256) (Z.shiftl (Z.shiftr v 8 mod 256) 8) = v mod 2 ^ 16.
Proof.
  change 256 with (2 ^ 8). apply Z.bits_inj'. intros n Hn.
  rewrite !Z.lor_spec, !testbit_byte_part, !Z.testbit_mod_pow2 by lia.
  destruct (Z.testbit v n); rewrite ?andb_false_r; [| reflexivity].
  rewrite !andb_true_r.
  destruct (n <? 8) eqn:A; destruct (8 <=? n) eqn:B; destruct (n <? 8 + 8) eqn:C;
    destruct (n <? 16) eqn:H; try reflexivity;
    rewrite ?Z.ltb_lt, ?Z.ltb_ge, ?Z.leb_le, ?Z.leb_gt in *; lia.
Qed.

Lemma Uint16_of_pair {E : Type} (b0 b1 : Z) :
  @LittleEndian_Uint16 E (of_list [b0; b1]) = Ok (Z.lor b0 (Z.shiftl b1 8)).
Proof. reflexivity. Qed.

Lemma Uint32_of_four {E : Type} (b0 b1 b2 b3 : Z) :
  @LittleEndian_Uint32 E (of_list [b0; b1; b2; b3])
  = Ok (Z.lor (Z.lor (Z.lor b0 (Z.shiftl b1 8)) (Z.shiftl b2 16)) (Z.shiftl b3 24)).
Proof. reflexivity. Qed.

(** X7: the two byte-order helpers write a value as little-endian bytes:
    what [uint16ToBytes] and [uint32ToBytes] produce are bytes, and reading
    them back with the little-endian decoders gives the value modulo 2^16,
    resp. 2^32. *)
Theorem uintToBytes_read_back (v : Z) :
  @LittleEndian_Uint16 unit (of_list (uint16ToBytes v)) = Ok (v mod 2 ^ 16) /\
  @LittleEndian_Uint32 unit (of_list (uint32ToBytes v)) = Ok (v mod 2 ^ 32) /\
  Forall is_byte (uint16ToBytes v) /\
  Forall is_byte (uint32ToBytes v).
Proof.
  split; [| split; [| split]].
  - unfold uint16ToBytes, LittleEndian_PutUint16.
    rewrite Uint16_of_pair, uint16_recompose_mod. reflexivity.
  - unfold uint32ToBytes, LittleEndian_PutUint32.
    rewrite Uint32_of_four, uint32_recompose. reflexivity.
  - unfold uint16ToBytes, LittleEndian_PutUint16.
    repeat (constructor; [apply Z.mod_pos_bound; lia |]). constructor.
  - unfold uint32ToBytes, LittleEndian_PutUint32.
    repeat (constructor; [apply Z.mod_pos_bound; lia |]). constructor.
Qed.

(** ** ParseHeader and the frame of Encode *)

Lemma ParseHeader_long (data : slice) :
  11 <= len data ->
  ParseHeader data =
  if negb (byte_at (elems data) 0 =? StartByte)
  then Err (HdrBadStart StartByte (byte_at (elems data) 0))
  else Ok (header_of (elems data)).
Proof.
  intros H. unfold ParseHeader. rewrite (proj2 (Z.ltb_ge _ _)) by assumption.
  destruct data as [d sp]. unfold len in H. cbn [elems] in *.
  do 11 split_head d H.
  unfold header_of, uint16_at, uint32_at, byte_at.
  change (Z.to_nat 0) with 0%nat. change (Z.to_nat (1 + 1)) with 2%nat.
  change (Z.to_nat 1) with 1%nat. change (Z.to_nat (3 + 1)) with 4%nat.
  change (Z.to_nat 3) with 3%nat. change (Z.to_nat (5 + 1)) with 6%nat.
  change (Z.to_nat 5) with 5%nat. change (Z.to_nat 7) with 7%nat.
  change (Z.to_nat (7 + 1)) with 8%nat. change (Z.to_nat (7 + 2)) with 9%nat.
  change (Z.to_nat (7 + 3)) with 10%nat.
  cbn [nth ReadByte Read_uint16 Read_uint32].
  destruct (negb (e =? StartByte)); reflexivity.
Qed.

(** X8: [ParseHeader] has three outcomes only: the too-short error below 11
    bytes, the start-byte error, or a header whose fields are the
    little-endian integers at offsets 1, 3, 5 and 7; none of its read-error
    branches is ever taken, and bytes past the eleventh play no role. *)
Theorem ParseHeader_outcomes (data : slice) :
  ParseHeader data =
  if len data <? 11 then Err (HdrTooShort (len data)) else
  if negb (byte_at (elems data) 0 =? StartByte)
  then Err (HdrBadStart StartByte (byte_at (elems data) 0))
  else Ok (mkHeader (byte_at (elems data) 0)
                    (uint16_at (elems data) 1) (uint16_at (elems data) 3)
                    (uint16_at (elems data) 5) (uint32_at (elems data) 7)).
Proof.
  destruct (len data <? 11) eqn:H.
  - unfold ParseHeader. rewrite H. reflexivity.
  - apply Z.ltb_ge in H. apply ParseHeader_long. assumption.
Qed.

Lemma encoded_header_of (mb : solarmanPackager) (pdu : ProtocolDataUnit) (t : list Z) :
  header_of (encoded_header mb pdu ++ t) =
  mkHeader StartByte ((19 + len (Data pdu)) mod 65536) ControlCodeRequest
           ((serial mb + 1) mod 256) (LoggerSerial mb mod 2 ^ 32).
Proof.
  change (header_of (encoded_header mb pdu ++ t))
    with (let l := Z.of_nat (length (encoded_payload mb pdu)) mod 65536 in
          mkHeader 0xA5
                   (Z.lor (l mod 256) (Z.shiftl (Z.shiftr l 8 mod 256) 8))
                   (Z.lor 0x10 (Z.shiftl 0x45 8))
                   (Z.lor ((serial mb + 1) mod 256) (Z.shiftl 0 8))
                   (Z.lor (Z.lor (Z.lor (LoggerSerial mb mod 256)
                                        (Z.shiftl (Z.shiftr (LoggerSerial mb) 8 mod 256) 8))
                                 (Z.shiftl (Z.shiftr (LoggerSerial mb) 16 mod 256) 16))
                          (Z.shiftl (Z.shiftr (LoggerSerial mb) 24 mod 256) 24))).
  cbv zeta. rewrite uint32_recompose, uint16_recompose_mod, encoded_payload_length.
  rewrite Z.shiftl_0_l, Z.lor_0_r.
  change (2 ^ 16) with 65536. rewrite Z.mod_mod by lia. reflexivity.
Qed.

(** X9: the header of a frame built by [Encode] reads back through
    [ParseHeader]: start marker, payload length 19 + len(data) modulo 2^16,
    the request control code, the sequence number just drawn (high byte
    zero) and the logger serial modulo 2^32. *)
Theorem ParseHeader_of_Encode (mb : solarmanPackager) (pdu : ProtocolDataUnit)
        (sp : list Z) :
  ParseHeader (mkSlice (snd (Encode mb pdu)) sp) =
  Ok (mkHeader StartByte ((19 + len (Data pdu)) mod 65536) ControlCodeRequest
               ((serial mb + 1) mod 256) (LoggerSerial mb mod 2 ^ 32)).
Proof.
  rewrite ParseHeader_long.
  - cbn [elems]. rewrite Encode_eq. cbn [snd].
    rewrite encoded_byte_0, Z.eqb_refl. cbn [negb].
    rewrite encoded_header_of. reflexivity.
  - unfold len. cbn [elems]. rewrite Encode_eq. cbn [snd].
    rewrite encoded_length. pose proof (len_nonneg (Data pdu)). lia.
Qed.

(** X10: [Encode] always produces a well-formed request frame: 32 bytes more
    than the data, the start marker first and the end marker last, the
    request control code at offset 3, a zero at offset 6, the payload length
    modulo 2^16 at offset 1, and at the second-to-last place the checksum of
    everything between the start marker and that place. *)
Theorem Encode_frame_well_formed (mb : solarmanPackager) (pdu : ProtocolDataUnit) :
  let adu := snd (Encode mb pdu) in
  let n := Z.of_nat (length adu) in
  n = 32 + len (Data pdu) /\
  byte_at adu 0 = StartByte /\
  uint16_at adu 1 = (n - 13) mod 65536 /\
  uint16_at adu 3 = ControlCodeRequest /\
  byte_at adu 6 = 0 /\
  byte_at adu (n - 2) = CheckSum (of_list (range adu 1 (n - 2))) /\
  byte_at adu (n - 1) = EndByte.
Proof.
  cbv zeta. rewrite Encode_eq. cbn [snd].
  split; [apply encoded_length |].
  split; [apply encoded_byte_0 |].
  split; [apply encoded_declared_length |].
  split; [reflexivity |]. split; [reflexivity |].
  split.
  - rewrite encoded_checksum_byte.
    pose proof (encoded_outer_checksum mb pdu) as H. unfold outer_checksum in H.
    rewrite H. reflexivity.
  - rewrite encoded_length. rewrite app_assoc.
    change [CheckSum (of_list (skipn 1 (encoded_header mb pdu ++ encoded_payload mb pdu)));
            EndByte]
      with ([CheckSum (of_list (skipn 1 (encoded_header mb pdu ++ encoded_payload mb pdu)))]
            ++ [EndByte]).
    rewrite app_assoc. apply byte_at_mid.
    rewrite !length_app, encoded_header_length. cbn [length].
    pose proof (encoded_payload_length mb pdu). lia.
Qed.

(** ** More on Verify *)

(** X11: [Verify] never returns the sequence-mismatch error, whatever the
    two buffers are. *)
Theorem Verify_never_sequence_error (aduRequest aduResponse : slice) (a b : Z) :
  Verify aduRequest aduResponse <> Err (SequenceMismatch a b).
Proof.
  rewrite Verify_cases_eq. unfold Verify_cases.
  repeat match goal with
         | |- context [if ?c then _ else _] => destruct c
         end; discriminate.
Qed.

(** X12: [Verify] reads the request through its capacity, not its length:
    two request slices over the same backing bytes get the same verdict,
    however many of those bytes each slice shows. *)
Theorem Verify_reads_backing (request request' aduResponse : slice) :
  backing request = backing request' ->
  Verify request aduResponse = Verify request' aduResponse.
Proof.
  intros H. rewrite !Verify_cases_eq. unfold Verify_cases.
  rewrite !cap_backing, H. reflexivity.
Qed.

(** An empty slice over the eleven bytes of the test request is verified
    like the request itself. *)
Lemma Verify_reads_backing_witness :
  Verify (mkSlice [] verify_request) (of_list verify_response)
  = Verify (of_list verify_request) (of_list verify_response).
Proof.
  refine (Verify_reads_backing (mkSlice [] verify_request) (of_list verify_request)
            (of_list verify_response) _).
  reflexivity.
Defined.

(** X13: for a request of at least 11 bytes and a response that passes the
    length, start-byte and checksum checks, [Verify] succeeds exactly when
    sequence byte, control code (request minus 0x3000, modulo 2^16) and
    serial bytes match; with the sequence bytes equal, a control-code mismatch
    and, after it, a serial mismatch are reported with errors of their own. *)
Theorem Verify_verdicts (aduRequest aduResponse : slice) :
  11 <= len aduRequest ->
  11 <= len aduResponse ->
  byte_at (elems aduResponse) 0 = StartByte ->
  outer_checksum (elems aduResponse)
    = byte_at (elems aduResponse) (len aduResponse - 2) ->
  let q := elems aduRequest in
  let r := elems aduResponse in
  let expected := (uint16_at q 3 - 0x3000) mod 65536 in
  (Verify aduRequest aduResponse = Ok tt <->
   byte_at q 5 = byte_at r 5 /\ uint16_at r 3 = expected /\ range q 7 11 = range r 7 11) /\
  (byte_at q 5 = byte_at r 5 -> uint16_at r 3 <> expected ->
   Verify aduRequest aduResponse = Err (ControlCodeMismatch expected (uint16_at r 3))) /\
  (byte_at q 5 = byte_at r 5 -> uint16_at r 3 = expected ->
   range q 7 11 <> range r 7 11 ->
   Verify aduRequest aduResponse = Err (SerialMismatch (range q 7 11) (range r 7 11))).
Proof.
  intros Hq Hr Hs Hc q r expected. split; [| split].
  - apply Verify_succeeds_iff; assumption.
  - apply Verify_control_code_mismatch; assumption.
  - apply Verify_serial_mismatch; assumption.
Qed.

Lemma Verify_verdicts_witness :
  Verify (of_list verify_request) (of_list verify_response) = Ok tt.
Proof.
  refine (proj2 (proj1 (Verify_verdicts (of_list verify_request) (of_list verify_response)
                          _ _ _ _)) _).
  - unfold len, of_list, verify_request. cbn [elems length]. lia.
  - unfold len, of_list, verify_response. cbn [elems length]. lia.
  - reflexivity.
  - reflexivity.
  - repeat split.
Defined.

(** X14: a response is verified against the frame that [Encode] built exactly
    when it carries the sequence number [Encode] drew, the response control
    code 0x1510 and the packager's logger serial in little-endian bytes. *)
Theorem Verify_reply_to_Encode (mb : solarmanPackager) (pdu : ProtocolDataUnit)
        (sp : list Z) (aduResponse : slice) :
  11 <= len aduResponse ->
  byte_at (elems aduResponse) 0 = StartByte ->
  outer_checksum (elems aduResponse)
    = byte_at (elems aduResponse) (len aduResponse - 2) ->
  (Verify (mkSlice (snd (Encode mb pdu)) sp) aduResponse = Ok tt <->
   byte_at (elems aduResponse) 5 = (serial mb + 1) mod 256 /\
   uint16_at (elems aduResponse) 3 = 0x1510 /\
   range (elems aduResponse) 7 11 = uint32ToBytes (LoggerSerial mb)).
Proof.
  intros Hr Hs Hc.
  assert (Hq : 11 <= len (mkSlice (snd (Encode mb pdu)) sp)).
  { unfold len. cbn [elems]. rewrite Encode_eq. cbn [snd]. rewrite encoded_length.
    pose proof (len_nonneg (Data pdu)). lia. }
  rewrite (Verify_succeeds_iff _ _ Hr Hs Hc Hq). cbn [elems].
  rewrite Encode_eq. cbn [snd].
  set (adu := encoded_header mb pdu ++ _).
  change (byte_at adu 5) with ((serial mb + 1) mod 256).
  change (uint16_at adu 3) with 0x4510.
  change (range adu 7 11) with (uint32ToBytes (LoggerSerial mb)).
  change ((0x4510 - 0x3000) mod 65536) with 0x1510.
  split; intros [H1 [H2 H3]]; repeat split; auto.
Qed.

(** ** More on the transporter *)

Lemma Close_connected (net : network) (st : state) (c : nat) :
  conn st = Some c ->
  Close net st =
  (Ret (net_Close net (closes st)), advance st (Some c) 0 0 0 1 [EvClose c]).
Proof.
  intros H. connected_state st H.
  unfold Close, conn_Close, mbind, get_conn, next_close, emit, ret.
  cbn [Address conn Logger dials writes reads closes trace]. reflexivity.
Qed.

Lemma Send_connect_fails_at (net : network) (st : state) (aduRequest : slice)
      (e : error) :
  conn st = None -> net_Dial net (dials st) = Some e ->
  Send net aduRequest st =
  (Ret (None, Some (Wrapped "failed to connect to" e)),
   advance st None 1 0 0 0 [EvPrintln; EvDial (dials st)]).
Proof.
  intros Hc Hd. unfold Send, mbind. rewrite (connect_disconnected net st Hc), Hd.
  reflexivity.
Qed.

(** X15: a [Send] on a transporter without a connection whose dial fails
    returns the dial error wrapped as a connection failure; nothing is
    written or read and the transporter stays without a connection. *)
Theorem Send_connect_fails (net : network) (st : state) (aduRequest : slice) (e : error) :
  conn st = None -> net_Dial net (dials st) = Some e ->
  Send net aduRequest st =
  (Ret (None, Some (Wrapped "failed to connect to" e)),
   advance st None 1 0 0 0 [EvPrintln; EvDial (dials st)]).
Proof.
  intros Hc Hd. apply Send_connect_fails_at; assumption.
Qed.

Lemma Send_connect_fails_witness :
  Send (mkNetwork (fun _ => Some (Errno 111)) (fun _ _ => (0, None))
                  (fun _ => ([], None)) (fun _ => None))
       (of_list verify_request) (fresh "192.168.1.1:8899")
  = (Ret (None, Some (Wrapped "failed to connect to" (Errno 111))),
     advance (fresh "192.168.1.1:8899") None 1 0 0 0 [EvPrintln; EvDial 0]).
Proof.
  refine (Send_connect_fails _ (fresh "192.168.1.1:8899") (of_list verify_request)
            (Errno 111) _ _); reflexivity.
Defined.

(** X16: an exchange without failures.  On a transporter without a
    connection [Send] dials once, writes the request once, reads once and
    keeps the connection; on a transporter that holds a connection it does
    not dial, and writes and reads once on that connection. *)
Theorem Send_exchanges_once (net : network) (st : state) (aduRequest aduResponse : slice) :
  write_error net (writes st) aduRequest = None ->
  read_result net (reads st) = (aduResponse, None) ->
  (conn st = None -> net_Dial net (dials st) = None ->
   Send net aduRequest st =
   (Ret (Some aduResponse, None),
    advance st (Some (dials st)) 1 1 1 0
            ([EvPrintln; EvDial (dials st); EvSleep;
              EvWrite (dials st) (elems aduRequest)]
             ++ logged st "SENT" aduRequest
             ++ [EvRead (dials st)]
             ++ logged st "RECD" aduResponse))) /\
  (forall c : nat,
     conn st = Some c ->
     Send net aduRequest st =
     (Ret (Some aduResponse, None),
      advance st (Some c) 0 1 1 0
              ([EvPrintln; EvSleep; EvWrite c (elems aduRequest)]
               ++ logged st "SENT" aduRequest
               ++ [EvRead c]
               ++ logged st "RECD" aduResponse))).
Proof.
  intros Hw Hr. split.
  - intros Hc Hd.
    pose proof (connect_disconnected net st Hc) as Hco. rewrite Hd in Hco.
    rewrite (Send_exchange net st _ (dials st) aduRequest Hco eq_refl aduResponse Hw Hr).
    rewrite advance_advance. reflexivity.
  - intros c Hc.
    pose proof (connect_connected net st c Hc) as Hco.
    rewrite (Send_exchange net st _ c aduRequest Hco eq_refl aduResponse Hw Hr).
    rewrite advance_advance. reflexivity.
Qed.

Lemma Send_exchanges_once_witness :
  exists st',
    Send net_read_pipe (of_list verify_request)
         (advance connected_transporter (Some 0%nat) 0 0 1 0 [])
    = (Ret (Some (fst (read_result net_read_pipe 1)), None), st') /\
    skipn 3 (trace st') = [EvPrintln; EvSleep; EvWrite 0 verify_request; EvRead 0].
Proof.
  eexists. split.
  - refine (proj2 (Send_exchanges_once net_read_pipe
                     (advance connected_transporter (Some 0%nat) 0 0 1 0 [])
                     (of_list verify_request) (fst (read_result net_read_pipe 1)) _ _)
                  0%nat _); reflexivity.
  - reflexivity.
Defined.

Ltac send_cases :=
  repeat (send_calls;
          match goal with
          | |- context [write_error ?n ?k ?q] => destruct (write_error n k q)
          | |- context [is_EPIPE ?e] => destruct (is_EPIPE e)
          | |- context [net_Dial ?n ?k] => destruct (net_Dial n k)
          | |- context [read_result ?n ?k] => destruct (read_result n k) as [? [? |]]
          end);
  send_calls.

(** [Send] on a transporter that holds a connection begins without a dial
    and with a write on that connection, whatever the network answers. *)
Lemma Send_begins_with_write (net : network) (st : state) (c : nat) (aduRequest : slice) :
  conn st = Some c ->
  exists (returned : option slice * option error) (st' : state) (rest : list event),
    Send net aduRequest st = (Ret returned, st') /\
    trace st' = trace st ++ [EvPrintln; EvSleep; EvWrite c (elems aduRequest)] ++ rest.
Proof.
  intros Hc. unfold Send, mbind. rewrite (connect_connected net st c Hc).
  send_cases;
    (eexists; eexists; eexists; split; [reflexivity |];
     unfold advance; cbn [trace app]; rewrite <- ?app_assoc; cbn [app]; reflexivity).
Qed.

(** The first write does not fail with a broken pipe and neither does the
    read: one write, one read, no dial. *)
Lemma Send_no_pipe (net : network) (st : state) (c : nat)
      (aduRequest aduResponse : slice) (err : option error) :
  conn st = Some c ->
  errors_Is_EPIPE (write_error net (writes st) aduRequest) = false ->
  read_result net (reads st) = (aduResponse, err) -> errors_Is_EPIPE err = false ->
  Send net aduRequest st =
  (Ret (Some aduResponse, err),
   advance st (Some c) 0 1 1 0
           ([EvPrintln; EvSleep; EvWrite c (elems aduRequest)]
            ++ logged st "SENT" aduRequest
            ++ [EvRead c]
            ++ logged st "RECD" aduResponse)).
Proof.
  intros Hc Hw Hr Hne. unfold Send, mbind. rewrite (connect_connected net st c Hc).
  send_run.
Qed.

(** The first write fails with a broken pipe on a transporter that held a
    connection: that connection is closed and a new one dialled. *)
Lemma Send_write_pipe_dials (net : network) (st : state) (c : nat) (aduRequest : slice) :
  conn st = Some c ->
  errors_Is_EPIPE (write_error net (writes st) aduRequest) = true ->
  exists (returned : option slice * option error) (st' : state) (rest : list event),
    Send net aduRequest st = (Ret returned, st') /\
    trace st' = trace st ++ [EvPrintln; EvSleep; EvWrite c (elems aduRequest);
                             EvClose c; EvPrintln; EvDial (dials st)] ++ rest.
Proof.
  intros Hc Hw. unfold Send, mbind. rewrite (connect_connected net st c Hc).
  send_calls. rewrite Hw.
  send_cases;
    (eexists; eexists; eexists; split; [reflexivity |];
     unfold advance; cbn [trace app]; rewrite <- ?app_assoc; cbn [app]; reflexivity).
Qed.

(** The first write does not fail with a broken pipe and the read does: the
    connection is closed and a new one dialled. *)
Lemma Send_read_pipe_dials (net : network) (st : state) (c : nat)
      (aduRequest partial : slice) (e : error) :
  conn st = Some c ->
  errors_Is_EPIPE (write_error net (writes st) aduRequest) = false ->
  read_result net (reads st) = (partial, Some e) -> is_EPIPE e = true ->
  exists (returned : option slice * option error) (st' : state) (rest : list event),
    Send net aduRequest st = (Ret returned, st') /\
    trace st' = trace st ++ [EvPrintln; EvSleep; EvWrite c (elems aduRequest)]
                         ++ logged st "SENT" aduRequest
                         ++ [EvRead c; EvClose c; EvPrintln; EvDial (dials st)] ++ rest.
Proof.
  intros Hc Hw Hr He. unfold Send, mbind. rewrite (connect_connected net st c Hc).
  send_calls. rewrite Hw. send_calls. rewrite Hr. send_calls. rewrite He.
  send_cases;
    (eexists; eexists; eexists; split; [reflexivity |];
     unfold advance; cbn [trace app]; rewrite <- ?app_assoc; cbn [app]; reflexivity).
Qed.

(** X17: [Close] closes the socket but leaves it in the transporter, so the
    next [Send], whatever the network answers, begins without a dial and
    with a write on the connection that was closed.  Unless that write or
    the read after it fails with a broken pipe, [Send] uses the closed
    connection only: it returns the outcome of the read on it, never dials,
    and the transporter keeps the closed connection — this is the case of a
    socket that refuses both calls because it is closed.  With a broken pipe
    on the write, or on the read, [Send] closes the same socket a second time
    and dials. *)
Theorem Send_after_Close (net : network) (st : state) (c : nat) (aduRequest : slice) :
  conn st = Some c ->
  let closed := advance st (Some c) 0 0 0 1 [EvClose c] in
  Close net st = (Ret (net_Close net (closes st)), closed) /\
  (exists (returned : option slice * option error) (st' : state) (rest : list event),
     Send net aduRequest closed = (Ret returned, st') /\
     trace st' = trace st ++ [EvClose c; EvPrintln; EvSleep; EvWrite c (elems aduRequest)]
                          ++ rest) /\
  (forall (aduResponse : slice) (err : option error),
     errors_Is_EPIPE (write_error net (writes st) aduRequest) = false ->
     read_result net (reads st) = (aduResponse, err) -> errors_Is_EPIPE err = false ->
     Send net aduRequest closed =
     (Ret (Some aduResponse, err),
      advance st (Some c) 0 1 1 1
              ([EvClose c; EvPrintln; EvSleep; EvWrite c (elems aduRequest)]
               ++ logged st "SENT" aduRequest
               ++ [EvRead c]
               ++ logged st "RECD" aduResponse))) /\
  (errors_Is_EPIPE (write_error net (writes st) aduRequest) = true ->
   exists (returned : option slice * option error) (st' : state) (rest : list event),
     Send net aduRequest closed = (Ret returned, st') /\
     trace st' = trace st ++ [EvClose c; EvPrintln; EvSleep; EvWrite c (elems aduRequest);
                              EvClose c; EvPrintln; EvDial (dials st)] ++ rest) /\
  (forall (partial : slice) (e : error),
     errors_Is_EPIPE (write_error net (writes st) aduRequest) = false ->
     read_result net (reads st) = (partial, Some e) -> is_EPIPE e = true ->
     exists (returned : option slice * option error) (st' : state) (rest : list event),
       Send net aduRequest closed = (Ret returned, st') /\
       trace st' = trace st ++ [EvClose c; EvPrintln; EvSleep; EvWrite c (elems aduRequest)]
                            ++ logged st "SENT" aduRequest
                            ++ [EvRead c; EvClose c; EvPrintln; EvDial (dials st)] ++ rest).
Proof.
  intros Hc closed.
  assert (Hh : conn closed = Some c) by reflexivity.
  split; [apply Close_connected; assumption |].
  split; [| split; [| split]].
  - destruct (Send_begins_with_write net closed c aduRequest Hh)
      as [returned [st' [rest [HS Ht]]]].
    exists returned, st', rest. split; [assumption |].
    rewrite Ht. unfold closed, advance. cbn [trace]. rewrite <- !app_assoc. reflexivity.
  - intros aduResponse err Hw Hr Hne.
    rewrite (Send_no_pipe net closed c aduRequest aduResponse err Hh Hw Hr Hne).
    unfold closed. rewrite advance_advance. reflexivity.
  - intros Hw.
    destruct (Send_write_pipe_dials net closed c aduRequest Hh Hw)
      as [returned [st' [rest [HS Ht]]]].
    exists returned, st', rest. split; [assumption |].
    rewrite Ht. unfold closed, advance. cbn [trace dials Nat.add].
    rewrite <- !app_assoc. reflexivity.
  - intros partial e Hw Hr He.
    destruct (Send_read_pipe_dials net closed c aduRequest partial e Hh Hw Hr He)
      as [returned [st' [rest [HS Ht]]]].
    exists returned, st', rest. split; [assumption |].
    rewrite Ht. unfold closed, advance. cbn [trace dials Nat.add].
    rewrite <- !app_assoc. reflexivity.
Qed.

(** The transporter of the package's Send test, closed, on a network that
    refuses every write and read as Go does on a closed connection: [Send]
    does not dial, returns the error of the read, and the transporter still
    holds the closed connection. *)
Lemma Send_after_Close_witness :
  let closed := advance connected_transporter (Some 0%nat) 0 0 0 1 [EvClose 0] in
  Close net_closed connected_transporter = (Ret None, closed) /\
  Send net_closed (of_list verify_request) closed =
  (Ret (Some (fst (read_result net_closed 0)),
        Some (Wrapped "read tcp" (Other "use of closed network connection"))),
   advance connected_transporter (Some 0%nat) 0 1 1 1
           [EvClose 0; EvPrintln; EvSleep; EvWrite 0 verify_request; EvRead 0]).
Proof.
  pose proof (Send_after_Close net_closed connected_transporter 0%nat
                (of_list verify_request) eq_refl) as H.
  cbv zeta in H. destruct H as [HC [_ [HS _]]].
  split; [exact HC |].
  refine (HS (fst (read_result net_closed 0))
             (Some (Wrapped "read tcp" (Other "use of closed network connection")))
             _ _ _); reflexivity.
Defined.

Lemma Send_from_connected (net : network) (st : state) (c : nat) (aduRequest : slice)
      (d : nat) (evs : list event) :
  (d <= 1)%nat ->
  forall st0 : state,
    connect net st0 = (Ret None, advance st (Some c) d 0 0 0 evs) ->
    exists (returned : option slice * option error) (st' : state),
      Send net aduRequest st0 = (Ret returned, st') /\
      (dials st' <= dials st + 3)%nat /\ (closes st' <= closes st + 2)%nat /\
      (writes st' <= writes st + 3)%nat /\ (reads st' <= reads st + 2)%nat.
Proof.
  intros Hd st0 Hco. unfold Send, mbind. rewrite Hco.
  send_cases;
    (eexists; eexists; split; [reflexivity |];
     unfold advance; cbn [dials closes writes reads]; lia).
Qed.

(** X18: on a network that answers every call, [Send] never calls a method
    on a nil connection (it returns a result and does not panic), and in one
    call it dials at most three times, closes at most two sockets, writes at
    most three times and reads at most twice.  The four bounds are reached
    together: on a transporter without a connection, when the first write and
    then the first read fail with a broken pipe. *)
Theorem Send_call_bounds :
  (forall (net : network) (st : state) (aduRequest : slice),
     exists (returned : option slice * option error) (st' : state),
       Send net aduRequest st = (Ret returned, st') /\
       (dials st' <= dials st + 3)%nat /\ (closes st' <= closes st + 2)%nat /\
       (writes st' <= writes st + 3)%nat /\ (reads st' <= reads st + 2)%nat) /\
  (exists (returned : option slice * option error) (st' : state),
     let st := fresh "192.168.1.1:8899" in
     Send net_pipes (of_list verify_request) st = (Ret returned, st') /\
     dials st' = (dials st + 3)%nat /\ closes st' = (closes st + 2)%nat /\
     writes st' = (writes st + 3)%nat /\ reads st' = (reads st + 2)%nat).
Proof.
  split.
  - intros net st aduRequest. destruct (conn st) as [c |] eqn:Hc.
    + apply (Send_from_connected net st c aduRequest 0 [EvPrintln; EvSleep]); [lia |].
      apply connect_connected. assumption.
    + destruct (net_Dial net (dials st)) as [e |] eqn:Hd.
      * rewrite (Send_connect_fails_at net st aduRequest e Hc Hd).
        eexists. eexists. split; [reflexivity |].
        unfold advance. cbn [dials closes writes reads]. lia.
      * apply (Send_from_connected net st (dials st) aduRequest 1
                 [EvPrintln; EvDial (dials st); EvSleep]); [lia |].
        rewrite (connect_disconnected net st Hc), Hd. reflexivity.
  - eexists. eexists. cbv zeta. split; [vm_compute; reflexivity |].
    repeat split.
Qed.

(** ** The extras on Parse, stated *)

(** X1: [Parse] accepts a frame exactly when it has at least 32 bytes, starts
    with the start marker, carries at the second-to-last place the checksum
    of the bytes after the start marker, declares in its header the length of
    its payload modulo 2^16, and ends its RTU segment (bytes 25 to the
    checksum) with the CRC-16 of the rest of that segment; the end marker is
    not looked at.  The response then holds the header fields, frame type,
    status and timing counters at their offsets, byte 26 as function code,
    bytes 27 to the CRC as data, and, as its checksum field, the last byte of
    the frame. *)
Theorem Parse_accepts_exactly (data : slice) (response : Response) :
  Parse data = Ok response <->
  32 <= len data /\
  byte_at (elems data) 0 = StartByte /\
  outer_checksum (elems data) = byte_at (elems data) (len data - 2) /\
  uint16_at (elems data) 1 = (len data - 13) mod 65536 /\
  rtu_crc_provided (elems data) = rtu_crc_expected (elems data) /\
  response =
  mkResponse
    (header_of (elems data))
    (mkPayload (byte_at (elems data) 11) (byte_at (elems data) 12)
               (uint32_at (elems data) 13) (uint32_at (elems data) 17)
               (uint32_at (elems data) 21)
               (mkPDU (byte_at (elems data) 26)
                      (mkSlice (range (elems data) 27 (len data - 4))
                               (skipn (Z.to_nat (len data - 4))
                                      (elems data ++ spare data)))))
    (byte_at (elems data) (len data - 1)).
Proof. apply Parse_Ok_iff. Qed.

(** X2: [Parse] panics exactly on the frames of 11 to 26 bytes that start
    with the start marker and carry the right outer checksum and, from 13
    bytes on, declare the payload length they have; on every other input it
    returns a response or an error. *)
Theorem Parse_panics_exactly (data : slice) (p : panic) :
  Parse data = Panic p <->
  byte_at (elems data) 0 = StartByte /\
  outer_checksum (elems data) = byte_at (elems data) (len data - 2) /\
  (11 <= len data < 13 /\ p = SliceBounds 11 (len data - 2) (cap data) \/
   13 <= len data < 27 /\ uint16_at (elems data) 1 = len data - 13 /\
   p = SliceBounds 25 (len data - 2) (cap data)).
Proof. apply Parse_Panic_iff. Qed.

Lemma Parse_detects_changed_byte_witness :
  Parse (mkSlice ([StartByte]
                  ++ ([0x0E; 0x00; 0x10; 0x15] ++ 0x02 :: [0x00; 0x4F; 0xAD; 0x6D; 0xA5])
                  ++ [0x42; 0x15]) [])
  = Err (ChecksumMismatch 0x43 0x42).
Proof.
  refine (Parse_detects_changed_byte [0x0E; 0x00; 0x10; 0x15]
            [0x00; 0x4F; 0xAD; 0x6D; 0xA5] [] 0x01 0x02 0x15 _ _ _ _).
  - cbn [length]. lia.
  - unfold is_byte. lia.
  - unfold is_byte. lia.
  - lia.
Defined.

Lemma Parse_detects_changed_rtu_byte_witness :
  let crc := elems (CRCFromBytes (of_list ([0x01; 0x03] ++ 0x02 :: [0x71; 0x00; 0x01]))) in
  let frame := fun v : Z =>
    (decode_test_prefix ++ ([0x01; 0x03] ++ v :: [0x71; 0x00; 0x01]) ++ crc)
    ++ [CheckSum (of_list (skipn 1 (decode_test_prefix
                                    ++ ([0x01; 0x03] ++ v :: [0x71; 0x00; 0x01]) ++ crc)));
        0x15] in
  crc = [0xD5; 0xA9] /\
  (exists response, Parse (mkSlice (frame 0x02) []) = Ok response) /\
  Parse (mkSlice (frame 0x04) []) =
  Err (CRCMismatch
         (elems (CRCFromBytes (of_list ([0x01; 0x03] ++ 0x04 :: [0x71; 0x00; 0x01]))))
         crc).
Proof.
  cbv zeta. split; [vm_compute; reflexivity |].
  refine (Parse_detects_changed_rtu_byte decode_test_prefix [0x01; 0x03]
            [0x71; 0x00; 0x01] [] 0x02 0x04 0x15 _ _ _ _ _ _ _ _ _).
  - reflexivity.
  - reflexivity.
  - reflexivity.
  - cbn [length]. lia.
  - repeat (constructor; [unfold is_byte; lia |]). constructor.
  - repeat (constructor; [unfold is_byte; lia |]). constructor.
  - unfold is_byte. lia.
  - unfold is_byte. lia.
  - lia.
Defined.

(** X19: [Parse] does not look at the end marker: a frame that is accepted is
    accepted with any other last byte, with the same header, frame type,
    status, timing counters, function code and data; that last byte is what
    the response's checksum field holds. *)
Theorem Parse_ignores_end_marker (body sp sp' : list Z) (e e' : Z) (response : Response) :
  Parse (mkSlice (body ++ [e]) sp) = Ok response ->
  exists response',
    Parse (mkSlice (body ++ [e']) sp') = Ok response' /\
    resp_Header response' = resp_Header response /\
    rp_FrameType (Payload response') = rp_FrameType (Payload response) /\
    rp_Status (Payload response') = rp_Status (Payload response) /\
    rp_TotalWorkingTime (Payload response') = rp_TotalWorkingTime (Payload response) /\
    rp_PowerOnTime (Payload response') = rp_PowerOnTime (Payload response) /\
    rp_OffsetTime (Payload response') = rp_OffsetTime (Payload response) /\
    FunctionCode (ModbusRTUFrame (Payload response'))
    = FunctionCode (ModbusRTUFrame (Payload response)) /\
    elems (Data (ModbusRTUFrame (Payload response')))
    = elems (Data (ModbusRTUFrame (Payload response))) /\
    Checksum response = e /\ Checksum response' = e'.
Proof. apply Parse_end_marker. Qed.

Lemma Parse_ignores_end_marker_witness :
  exists response',
    Parse (mkSlice (decode_test_body ++ [0x00]) []) = Ok response' /\
    FunctionCode (ModbusRTUFrame (Payload response')) = 0x03 /\
    Checksum response' = 0x00.
Proof.
  assert (H : exists r, Parse (mkSlice (decode_test_body ++ [0x15]) []) = Ok r
                        /\ FunctionCode (ModbusRTUFrame (Payload r)) = 0x03).
  { eexists. split; [vm_compute; reflexivity | reflexivity]. }
  destruct H as [r [H Hf]].
  destruct (Parse_ignores_end_marker decode_test_body [] [] 0x15 0x00 r H)
    as [r' [H1 [_ [_ [_ [_ [_ [_ [H2 [_ [_ H3]]]]]]]]]]].
  exists r'. split; [exact H1 |]. split; [rewrite H2; exact Hf | exact H3].
Defined.

Lemma Verify_reply_to_Encode_witness :
  Verify (mkSlice (snd (Encode (mkPackager 0x01 0xA56DAD4F 0)
                               (mkPDU 0x03 (of_list [0x00; 0x01; 0x00; 0x02])))) [])
         (of_list verify_response) = Ok tt.
Proof.
  refine (proj2 (Verify_reply_to_Encode (mkPackager 0x01 0xA56DAD4F 0)
                   (mkPDU 0x03 (of_list [0x00; 0x01; 0x00; 0x02])) []
                   (of_list verify_response) _ _ _) _).
  - unfold len, of_list, verify_response. cbn [elems length]. lia.
  - reflexivity.
  - reflexivity.
  - repeat split.
Defined.

(** X20: a first write that fails with an error that is not a broken pipe (a
    reset, a timeout, a short write) is invisible to the caller.  On two
    networks that answer alike except that this write succeeds on one and
    fails so on the other, [Send] makes the same calls, leaves the same state
    and returns the same response and error — those of the read, or of the
    recovery of the read when the read hits a broken pipe. *)
Theorem Send_ignores_write_error (net net' : network) (st : state) (aduRequest : slice) :
  (forall k : nat, net_Dial net' k = net_Dial net k) ->
  (forall k : nat, net_Read net' k = net_Read net k) ->
  (forall (k : nat) (b : list Z), k <> writes st -> net_Write net' k b = net_Write net k b) ->
  write_error net (writes st) aduRequest = None ->
  errors_Is_EPIPE (write_error net' (writes st) aduRequest) = false ->
  Send net' aduRequest st = Send net aduRequest st.
Proof.
  intros HD HR HW Hok Hne.
  assert (HR' : forall k, read_result net' k = read_result net k)
    by (intros k; unfold read_result; rewrite HR; reflexivity).
  assert (HW' : write_error net' (S (writes st)) aduRequest
                = write_error net (S (writes st)) aduRequest)
    by (unfold write_error; rewrite HW by lia; reflexivity).
  assert (Hgo : forall (c d : nat) (evs : list event),
             connect net' st = (Ret None, advance st (Some c) d 0 0 0 evs) ->
             connect net st = (Ret None, advance st (Some c) d 0 0 0 evs) ->
             Send net' aduRequest st = Send net aduRequest st).
  { intros c d evs Hc' Hc. unfold Send, mbind. rewrite Hc', Hc.
    send_calls. rewrite Hne, Hok. send_calls. rewrite HR'.
    destruct (read_result net (reads st)) as [aduResponse [e |]]; send_calls;
      [| reflexivity].
    destruct (is_EPIPE e); send_calls; [| reflexivity].
    rewrite HD. destruct (net_Dial net (d + dials st)); send_calls; [reflexivity |].
    rewrite HW'.
    destruct (write_error net (S (writes st)) aduRequest); send_calls; [reflexivity |].
    rewrite HR'. reflexivity. }
  destruct (conn st) as [c |] eqn:Hc.
  - apply (Hgo c 0%nat [EvPrintln; EvSleep]); apply connect_connected; assumption.
  - destruct (net_Dial net (dials st)) as [e |] eqn:Hd.
    + rewrite (Send_connect_fails_at net st aduRequest e Hc Hd).
      apply Send_connect_fails_at; [assumption | rewrite HD; assumption].
    + apply (Hgo (dials st) 1%nat [EvPrintln; EvDial (dials st); EvSleep]);
        rewrite connect_disconnected by assumption; rewrite ?HD, Hd; reflexivity.
Qed.

(** The transporter of the package's Send test on a network whose first
    write stops one byte short and whose first read hits a broken pipe: as on
    the network whose first write is complete, [Send] recovers the read and
    returns the response of the second read with a nil error. *)
Lemma Send_ignores_write_error_witness :
  write_error net_short_write 0 (of_list verify_request) = Some (ShortWrite 10 11) /\
  Send net_short_write (of_list verify_request) (fresh "192.168.1.1:8899")
  = Send net_read_pipe (of_list verify_request) (fresh "192.168.1.1:8899") /\
  exists st',
    Send net_short_write (of_list verify_request) (fresh "192.168.1.1:8899")
    = (Ret (Some (fst (read_result net_read_pipe 1)), None), st') /\
    trace st' = [EvPrintln; EvDial 0; EvSleep;
                 EvWrite 0 verify_request; EvRead 0; EvClose 0; EvPrintln; EvDial 1;
                 EvSleep; EvWrite 1 verify_request; EvRead 1].
Proof.
  assert (H : Send net_short_write (of_list verify_request) (fresh "192.168.1.1:8899")
              = Send net_read_pipe (of_list verify_request) (fresh "192.168.1.1:8899")).
  { refine (Send_ignores_write_error net_read_pipe net_short_write
              (fresh "192.168.1.1:8899") (of_list verify_request) _ _ _ _ _).
    - reflexivity.
    - reflexivity.
    - intros [| k] b Hk; [exfalso; apply Hk; reflexivity | reflexivity].
    - reflexivity.
    - reflexivity. }
  split; [reflexivity |]. split; [exact H |].
  eexists. split; [rewrite H; vm_compute; reflexivity | reflexivity].
Defined.

(** X21: the capacity of the buffer plays no role in [Parse]'s verdict: two
    slices that show the same bytes are rejected with the same error, or are
    both accepted with the same function code and data, or both panic. *)
Theorem Parse_ignores_capacity (d sp sp' : list Z) :
  (forall e : parse_error,
     Parse (mkSlice d sp) = Err e <-> Parse (mkSlice d sp') = Err e) /\
  (forall response : Response,
     Parse (mkSlice d sp) = Ok response ->
     exists response',
       Parse (mkSlice d sp') = Ok response' /\
       FunctionCode (ModbusRTUFrame (Payload response'))
       = FunctionCode (ModbusRTUFrame (Payload response)) /\
       elems (Data (ModbusRTUFrame (Payload response')))
       = elems (Data (ModbusRTUFrame (Payload response)))) /\
  ((exists p, Parse (mkSlice d sp) = Panic p) <->
   (exists p, Parse (mkSlice d sp') = Panic p)).
Proof.
  split; [| split].
  - intros e. rewrite !Parse_cases_eq. unfold Parse_cases, len. cbn [elems].
    repeat match goal with
           | |- context [if ?c then _ else _] => destruct c
           end;
      first [reflexivity | split; discriminate].
  - intros response H. apply Parse_Ok_iff in H. unfold len in H. cbn [elems spare] in H.
    destruct H as [Hn [Hs [Hc [Hl [Hcrc ->]]]]].
    eexists. split.
    + apply Parse_Ok_iff. unfold len. cbn [elems spare].
      repeat (split; [assumption |]). reflexivity.
    + split; reflexivity.
  - split; intros [p H]; apply Parse_Panic_iff in H; unfold len in H; cbn [elems] in H;
      destruct H as [Hs [Hc H]].
    + destruct H as [[Hn _] | [Hn [Hl _]]]; eexists; apply Parse_Panic_iff;
        unfold len; cbn [elems]; repeat (split; [assumption |]);
        [left | right]; repeat split; assumption || lia.
    + destruct H as [[Hn _] | [Hn [Hl _]]]; eexists; apply Parse_Panic_iff;
        unfold len; cbn [elems]; repeat (split; [assumption |]);
        [left | right]; repeat split; assumption || lia.
Qed.

(** X22: [reconnect] on a transporter that holds a connection closes it
    first, drops it, and dials once: on a dial error that error is returned
    and the transporter holds no connection; otherwise it holds the new one.
    On a transporter without a connection it is [connect]. *)
Theorem reconnect_closes_first (net : network) (st : state) :
  (forall c : nat,
     conn st = Some c ->
     reconnect net st =
     match net_Dial net (dials st) with
     | Some e =>
       (Ret (Some e), advance st None 1 0 0 1 [EvClose c; EvPrintln; EvDial (dials st)])
     | None =>
       (Ret None,
        advance st (Some (dials st)) 1 0 0 1
                [EvClose c; EvPrintln; EvDial (dials st); EvSleep])
     end) /\
  (conn st = None -> reconnect net st = connect net st).
Proof.
  split.
  - intros c H. apply reconnect_connected. assumption.
  - intros H. unfold reconnect, mbind, get_conn. rewrite H. reflexivity.
Qed.

Lemma reconnect_closes_first_witness :
  reconnect net_reset connected_transporter =
  (Ret None,
   advance connected_transporter (Some 1%nat) 1 0 0 1
           [EvClose 0; EvPrintln; EvDial 1; EvSleep]).
Proof.
  refine (proj1 (reconnect_closes_first net_reset connected_transporter) 0%nat _).
  reflexivity.
Defined.

(** X23: [Connect] is idempotent: on a transporter that holds a connection
    it dials nothing and keeps that connection; on one without it dials
    exactly once, keeps the new connection on success and stays without one
    on a dial error, which it returns. *)
Theorem Connect_idempotent (net : network) (st : state) :
  (forall c : nat,
     conn st = Some c ->
     Connect net st = (Ret None, advance st (Some c) 0 0 0 0 [EvPrintln; EvSleep])) /\
  (conn st = None ->
   Connect net st =
   match net_Dial net (dials st) with
   | Some e => (Ret (Some e), advance st None 1 0 0 0 [EvPrintln; EvDial (dials st)])
   | None =>
     (Ret None,
      advance st (Some (dials st)) 1 0 0 0 [EvPrintln; EvDial (dials st); EvSleep])
   end).
Proof.
  split.
  - intros c H. apply connect_connected. assumption.
  - intros H. apply connect_disconnected. assumption.
Qed.

Lemma Connect_idempotent_witness :
  Connect net_reset (fresh "192.168.1.1:8899") = (Ret None, connected_transporter) /\
  Connect net_reset connected_transporter
  = (Ret None, advance connected_transporter (Some 0%nat) 0 0 0 0 [EvPrintln; EvSleep]).
Proof.
  split.
  - refine (proj2 (Connect_idempotent net_reset (fresh "192.168.1.1:8899")) _).
    reflexivity.
  - refine (proj1 (Connect_idempotent net_reset connected_transporter) 0%nat _).
    reflexivity.
Defined.
